(** * Xpra: WebSocket frame codec and subprocess wrapper

    A shallow embedding of
    - [xpra/net/websockets/header.py] (the HyBi frame header codec), and
    - [xpra/net/subprocess_wrapper.py] (the callee / caller process bridge),
    together with the properties the specification states about them.

    Python integers are [Z], byte strings are [list byte], exceptions are
    the [Raise] branch of [pyresult]; object state, module globals and the
    calls made on collaborators (GLib, the protocol engine, the logger) are
    threaded through a small state-and-exception monad. *)

From Stdlib Require Import ZArith List Ascii String Bool Lia.
From coqutil Require Import Byte Word.LittleEndianList.
Import ListNotations.
Local Open Scope Z_scope.

(** ** Python results *)

Inductive exn : Type :=
| ValueError
| StructError
| IndexError
| TypeError
| AttributeError
| Empty
| SystemExit (code : Z)
| ConnectionClosedException.

(** A call returns a value, raises, or (a blocking queue read on an empty
    queue) never returns. *)
Inductive pyresult (A : Type) : Type :=
| Ret (a : A)
| Raise (e : exn)
| Blocked.
Arguments Ret {A} a.
Arguments Raise {A} e.
Arguments Blocked {A}.

Definition pybind {A B : Type} (r : pyresult A) (k : A -> pyresult B) : pyresult B :=
  match r with
  | Ret a => k a
  | Raise e => Raise e
  | Blocked => Blocked
  end.

Declare Scope py_scope.
Delimit Scope py_scope with py.
Notation "x <- c ;; k" := (pybind c (fun x => k))
  (at level 61, c at next level, right associativity) : py_scope.
Notation "' p <- c ;; k" := (pybind c (fun p => k))
  (at level 61, p pattern, c at next level, right associativity) : py_scope.

(** Truth value of a Python integer: [bool(n)]. *)
Definition truthy (n : Z) : bool := negb (n =? 0).

(** [buf[a:b]] for non-negative bounds: out-of-range bounds are clamped. *)
Definition slice {A : Type} (a b : Z) (buf : list A) : list A :=
  firstn (Z.to_nat b - Z.to_nat a) (skipn (Z.to_nat a) buf).

Definition len {A : Type} (l : list A) : Z := Z.of_nat (List.length l).

(** ** The [struct] module, big-endian unsigned formats *)

Module struct.

(** Big-endian bytes of an [n]-byte unsigned field. *)
Definition be_split (n : nat) (v : Z) : list byte := rev (le_split n v).
Definition be_combine (bs : list byte) : Z := le_combine (rev bs).

(** One unsigned field of [n] bytes; [struct.error] when out of range. *)
Definition pack_uint (n : nat) (v : Z) : pyresult (list byte) :=
  if (0 <=? v) && (v <? 2 ^ (8 * Z.of_nat n))
  then Ret (be_split n v)
  else Raise StructError.

(** [struct.pack('>BB', x, y)] *)
Definition pack_BB (x y : Z) : pyresult (list byte) :=
  (bx <- pack_uint 1 x ;; by_ <- pack_uint 1 y ;; Ret (bx ++ by_))%py.

(** [struct.pack('>BBH', x, y, h)] *)
Definition pack_BBH (x y h : Z) : pyresult (list byte) :=
  (bx <- pack_uint 1 x ;; by_ <- pack_uint 1 y ;; bh <- pack_uint 2 h ;;
   Ret (bx ++ by_ ++ bh))%py.

(** [struct.pack('>BBQ', x, y, q)] *)
Definition pack_BBQ (x y q : Z) : pyresult (list byte) :=
  (bx <- pack_uint 1 x ;; by_ <- pack_uint 1 y ;; bq <- pack_uint 8 q ;;
   Ret (bx ++ by_ ++ bq))%py.

(** [struct.unpack] raises [struct.error] unless the buffer has exactly
    the size of the format. *)
Definition unpack_uint (n : nat) (bs : list byte) : pyresult Z :=
  if Nat.eqb (List.length bs) n then Ret (be_combine bs) else Raise StructError.

(** [struct.unpack('>BB', bs)] *)
Definition unpack_BB (bs : list byte) : pyresult (Z * Z) :=
  match bs with
  | [x; y] => Ret (byte.unsigned x, byte.unsigned y)
  | _ => Raise StructError
  end.

(** [struct.unpack('>H', bs)[0]] *)
Definition unpack_H (bs : list byte) : pyresult Z := unpack_uint 2 bs.

(** [struct.unpack('>Q', bs)[0]] *)
Definition unpack_Q (bs : list byte) : pyresult Z := unpack_uint 8 bs.

End struct.

(** ** [xpra.net.websockets.mask] *)

Module mask.

(** A 4-byte mask key. *)
Definition mask_key : Type := (byte * byte * byte * byte)%type.

Definition key_bytes (k : mask_key) : list byte :=
  let '(k0, k1, k2, k3) := k in [k0; k1; k2; k3].

(** XOR the byte at logical payload position [i], [i+1], ... with the key
    byte at position [i mod 4]. *)
Fixpoint xor_cyclic (key : list byte) (i : nat) (data : list byte) : list byte :=
  match data with
  | [] => []
  | b :: rest =>
      byte.xor b (nth (i mod 4)%nat key Byte.x00) :: xor_cyclic key (S i) rest
  end.

(** Modelled from the spec: [hybi_unmask(buf, offset, datalen)] of
    [xpra/net/websockets/mask], which is not among the sources.  The key is
    read at [buf[offset:offset+4]], the masked payload follows it, and each
    payload byte is XORed with the key byte at its position modulo 4. *)
Definition hybi_unmask (buf : list byte) (offset datalen : Z) : list byte :=
  xor_cyclic (slice offset (offset + 4) buf) 0
             (slice (offset + 4) (offset + 4 + datalen) buf).

End mask.

(** ** [xpra/net/websockets/header.py] *)

Module header.

(** [encode_hybi_header(opcode, payload_len, has_mask=False, fin=True)] *)
Definition encode_hybi_header (opcode payload_len : Z) (has_mask fin : bool)
  : pyresult (list byte) :=
  if negb (Z.land opcode 0x0f =? opcode) then Raise ValueError else
  let mask_bit := 0x80 * Z.b2z has_mask in
  let b1 := Z.lor opcode (0x80 * Z.b2z fin) in
  if payload_len <=? 125 then
    struct.pack_BB b1 (Z.lor payload_len mask_bit)
  else if payload_len <? 65536 then
    struct.pack_BBH b1 (Z.lor 126 mask_bit) payload_len
  else
    struct.pack_BBQ b1 (Z.lor 127 mask_bit) payload_len.

(** The result of a successful decode:
    [(opcode, payload, length, fin)]. *)
Definition decoded : Type := (Z * list byte * Z * bool)%type.

(** [decode_hybi(buf)]; [Ret None] is the "incomplete" result. *)
Definition decode_hybi (buf : list byte) : pyresult (option decoded) :=
  let blen := len buf in
  let hlen := 2 in
  if blen <? hlen then Ret None else
  ('(b1, b2) <- struct.unpack_BB (slice 0 2 buf) ;;
   let opcode := Z.land b1 0x0f in
   let fin := truthy (Z.land b1 0x80) in
   let masked := truthy (Z.land b2 0x80) in
   let hlen := if masked then hlen + 4 else hlen in
   if masked && (blen <? hlen) then Ret None else
   let payload_len := Z.land b2 0x7f in
   sizes <-
     (if payload_len =? 126 then
        let hlen := hlen + 2 in
        if blen <? hlen then Ret None else
        (payload_len <- struct.unpack_H (slice 2 4 buf) ;;
         Ret (Some (hlen, payload_len)))
      else if payload_len =? 127 then
        let hlen := hlen + 8 in
        if blen <? hlen then Ret None else
        (payload_len <- struct.unpack_Q (slice 2 10 buf) ;;
         Ret (Some (hlen, payload_len)))
      else Ret (Some (hlen, payload_len))) ;;
   match sizes with
   | None => Ret None
   | Some (hlen, payload_len) =>
       let length := hlen + payload_len in
       if blen <? length then Ret None else
       let payload :=
         if masked then mask.hybi_unmask buf (hlen - 4) payload_len
         else slice hlen length buf in
       Ret (Some (opcode, payload, length, fin))
   end)%py.

(** Modelled from the spec: the frame builder [encode(opcode, payload,
    mask, fin)] of the frame codec, which is not among the sources (only
    [encode_hybi_header] is).  The header is followed, when masking is
    requested, by the 4-byte key and the payload XORed cyclically with it,
    and otherwise by the payload itself. *)
Definition encode_frame (opcode : Z) (payload : list byte)
           (key : option mask.mask_key) (fin : bool) : pyresult (list byte) :=
  match key with
  | None =>
      (h <- encode_hybi_header opcode (len payload) false fin ;;
       Ret (h ++ payload))%py
  | Some k =>
      (h <- encode_hybi_header opcode (len payload) true fin ;;
       Ret (h ++ mask.key_bytes k
              ++ mask.xor_cyclic (mask.key_bytes k) 0 payload))%py
  end.

(** *** What a buffer declares

    The fields of a frame header, read off the first bytes of a buffer; the
    statements about incomplete input are phrased with them. *)

(** The mask flag of the second byte. *)
Definition declares_mask (buf : list byte) : bool :=
  truthy (Z.land (byte.unsigned (nth 1 buf Byte.x00)) 0x80).

(** The 7-bit length code of the second byte. *)
Definition length_code (buf : list byte) : Z :=
  Z.land (byte.unsigned (nth 1 buf Byte.x00)) 0x7f.

(** The number of header bytes that the mask flag and the length class of
    the second byte call for: 2, and 4 for a mask key, and 2 or 8 for an
    extended length. *)
Definition declared_header_len (buf : list byte) : Z :=
  2 + (if declares_mask buf then 4 else 0)
    + (if length_code buf =? 126 then 2
       else if length_code buf =? 127 then 8 else 0).

(** The payload length that the header declares. *)
Definition declared_payload_len (buf : list byte) : Z :=
  if length_code buf =? 126 then struct.be_combine (slice 2 4 buf)
  else if length_code buf =? 127 then struct.be_combine (slice 2 10 buf)
  else length_code buf.

(** The number of header bytes of each length class. *)
Definition header_bytes (payload_len : Z) : Z :=
  if payload_len <=? 125 then 2
  else if payload_len <=? 65535 then 4
  else 10.

(** The length code and the extended-length bytes that a payload length is
    encoded with. *)
Definition code_of (payload_len : Z) : Z :=
  if payload_len <=? 125 then payload_len
  else if payload_len <? 65536 then 126 else 127.

Definition ext_of (payload_len : Z) : list byte :=
  if payload_len <=? 125 then []
  else if payload_len <? 65536 then struct.be_split 2 payload_len
  else struct.be_split 8 payload_len.

(** A well-formed frame: a buffer that decodes, and is consumed whole. *)
Definition well_formed_frame (frame : list byte) : Prop :=
  exists opcode payload fin,
    decode_hybi frame = Ret (Some (opcode, payload, len frame, fin)).

(** A final text frame carrying the two bytes of "hi". *)
Definition text_frame : list byte := [Byte.x81; Byte.x02; Byte.x68; Byte.x69].

(** *** [close_packet] *)

(** A Python [str], as the sequence of its code points, each from 0 to
    0x10FFFF. *)
Definition pystr : Type := list Z.

(** The UTF-8 bytes of one code point.  A surrogate (0xD800 to 0xDFFF)
    has none: [str.encode] raises [UnicodeEncodeError], which is a
    [ValueError]. *)
Definition utf8_char (cp : Z) : pyresult (list byte) :=
  if cp <? 0x80 then Ret [byte.of_Z cp]
  else if cp <? 0x800 then
    Ret [byte.of_Z (Z.lor 0xC0 (Z.shiftr cp 6));
         byte.of_Z (Z.lor 0x80 (Z.land cp 0x3F))]
  else if cp <? 0x10000 then
    if (0xD800 <=? cp) && (cp <=? 0xDFFF) then Raise ValueError
    else
      Ret [byte.of_Z (Z.lor 0xE0 (Z.shiftr cp 12));
           byte.of_Z (Z.lor 0x80 (Z.land (Z.shiftr cp 6) 0x3F));
           byte.of_Z (Z.lor 0x80 (Z.land cp 0x3F))]
  else
    Ret [byte.of_Z (Z.lor 0xF0 (Z.shiftr cp 18));
         byte.of_Z (Z.lor 0x80 (Z.land (Z.shiftr cp 12) 0x3F));
         byte.of_Z (Z.lor 0x80 (Z.land (Z.shiftr cp 6) 0x3F));
         byte.of_Z (Z.lor 0x80 (Z.land cp 0x3F))].

(** [s.encode("utf-8")] *)
Fixpoint utf8_encode (s : pystr) : pyresult (list byte) :=
  match s with
  | [] => Ret []
  | cp :: rest =>
      (b <- utf8_char cp ;; bs <- utf8_encode rest ;; Ret (b ++ bs))%py
  end.

Section WithOpcodes.

(** [OPCODE.CLOSE] of [xpra/net/websockets/common], which is not among the
    sources. *)
Variable CLOSE : Z.

(** [close_packet(code, reason)]; the defaults are 1000 and the empty
    string. *)
Definition close_packet (code : Z) (reason : pystr) : pyresult (list byte) :=
  (data <- struct.pack_uint 2 code ;;
   data <- match reason with
           | [] => Ret data
           | _ => (encoded <- utf8_encode reason ;; Ret (data ++ encoded))
           end ;;
   header <- encode_hybi_header CLOSE (len data) false true ;;
   Ret (header ++ data))%py.

End WithOpcodes.

End header.


(** ** State and exceptions

    [M S A] is a computation over a state [S] that returns, raises or
    blocks; the state reached is kept in every case, as a Python exception
    does not undo the mutations made before it. *)

Definition M (S A : Type) : Type := S -> pyresult A * S.

Definition ret {S A : Type} (a : A) : M S A := fun s => (Ret a, s).

Definition bind {S A B : Type} (m : M S A) (k : A -> M S B) : M S B :=
  fun s =>
    match m s with
    | (Ret a, s') => k a s'
    | (Raise e, s') => (Raise e, s')
    | (Blocked, s') => (Blocked, s')
    end.

Definition raise {S A : Type} (e : exn) : M S A := fun s => (Raise e, s).

Definition gets {S A : Type} (f : S -> A) : M S A := fun s => (Ret (f s), s).

Definition modify {S : Type} (f : S -> S) : M S unit := fun s => (Ret tt, f s).

(** [try: body except e: handler]; [handler] tells which exceptions it
    catches. *)
Definition try_except {S A : Type} (body : M S A) (handler : exn -> option (M S A))
  : M S A :=
  fun s =>
    match body s with
    | (Raise e, s') =>
        match handler e with
        | Some h => h s'
        | None => (Raise e, s')
        end
    | r => r
    end.

Declare Scope M_scope.
Delimit Scope M_scope with M.
Notation "x <- c ;; k" := (bind c (fun x => k))
  (at level 61, c at next level, right associativity) : M_scope.
Notation "' p <- c ;; k" := (bind c (fun p => k))
  (at level 61, p pattern, c at next level, right associativity) : M_scope.
Notation "c ;; k" := (bind c (fun _ => k))
  (at level 61, right associativity) : M_scope.

(** ** [queue.SimpleQueue] *)

Module SimpleQueue.

Definition t (A : Type) : Type := list A.

Definition empty {A : Type} : t A := [].

(** [q.put(x)] *)
Definition put {A : Type} (x : A) (q : t A) : t A := q ++ [x].

(** [q.get(block)]: the oldest item and the rest of the queue; on an empty
    queue the non-blocking form raises [Empty] and the blocking form
    waits. *)
Definition get {A : Type} (block : bool) (q : t A) : pyresult (A * t A) :=
  match q with
  | x :: rest => Ret (x, rest)
  | [] => if block then Blocked else Raise Empty
  end.

(** [q.qsize()] *)
Definition qsize {A : Type} (q : t A) : Z := len q.

End SimpleQueue.

(** ** [xpra/net/subprocess_wrapper.py] *)

Module subprocess_wrapper.

(** *** Packets *)

Inductive PacketElement : Type :=
| EInt (n : Z)
| EStr (s : string)
| EBytes (b : list byte).

(** Modelled from the spec: [Packet] of [xpra/net/common], which is not
    among the sources: an ordered sequence of elements whose first element
    is the command tag, a string. *)
Record Packet : Type := mkPacket {
  ptag : string;
  pargs : list PacketElement
}.

(** Modelled from the spec: [packet.get_str(i)] of the same class: the
    element at index [i], which has to be a string; index 0 is the command
    tag. *)
Definition get_str (packet : Packet) (i : nat) : pyresult string :=
  match i with
  | O => Ret (ptag packet)
  | S j =>
      match nth_error (pargs packet) j with
      | Some (EStr s) => Ret s
      | Some _ => Raise TypeError
      | None => Raise IndexError
      end
  end.

(** Modelled from the spec: the two reserved tags of
    [xpra/net/protocol/constants], which is not among the sources. *)
Definition CONNECTION_LOST : string := "connection-lost".
Definition GIBBERISH : string := "gibberish".

(** *** Collaborators *)

(** A connection, as far as [send] looks at it. *)
Record Connection : Type := mkConnection {
  is_active : bool
}.

(** A protocol engine instance. *)
Record Protocol : Type := mkProtocol {
  proto_id : nat;
  _conn : option Connection
}.

(** A [subprocess.Popen] object: [poll()] is [None] while the process
    runs and its return code afterwards. *)
Record Popen : Type := mkPopen {
  poll : option Z
}.

(** The callables handed to GLib, to the signal registry and to
    [connect]: bound methods of the callee and of the caller, a method [m]
    found on the wrapped object under the name [attr], a callback of the
    caller's user. *)
Inductive callable : Type :=
| bound_handle_signal
| bound_signal_stop
| bound_stop
| bound_cleanup
| bound_connection_lost
| bound_gibberish
| wrapped_method (attr : string) (m : nat)
| user_callback (cb : nat).

Inductive loglevel : Type := debug | warn.

(** An argument of a call that the caller schedules: the caller itself
    ([self]), or a value. *)
Inductive argument : Type :=
| caller_instance
| element (e : PacketElement).

(** The calls made on collaborators (the logger, GLib, the signal
    registry, the protocol engine and its connection, the main loop, the
    [cleanup] hook of subclasses, the wrapped object), in program order.
    [GLib.idle_add(f, *args)] is [idle_add] where the arguments are values,
    as in the callee, and [idle_add_args] where the caller itself is among
    them. *)
Inductive event : Type :=
| Log (level : loglevel) (fmt : string)
| idle_add (f : callable) (args : list PacketElement)
| idle_add_args (f : callable) (args : list argument)
| timeout_add (ms : Z) (f : callable)
| register_os_signals (f : callable)
| source_has_more (p : Protocol)
| raw_write (p : Protocol) (packet_type : string) (data : string)
| conn_flush (p : Protocol)
| protocol_close (p : Protocol)
| mainloop_quit
| cleanup_hook
| getattr_wrapped (attr : string).

(** *** Module globals and configuration *)

(** Modelled from the spec: [envint(name, default=0)] of [xpra/util/env],
    which is not among the sources: the integer value of an environment
    variable, the default when it is unset. *)
Definition envint (value : option Z) (d : Z) : Z :=
  match value with
  | Some n => n
  | None => d
  end.

(** The module constants read from the environment when the module is
    loaded, and what the module imports and the sources do not hold: the
    table [SIGNAMES] of [xpra/util/system], and [hexstr(str(x)[:32])] of
    [xpra/util/str_fn]. *)
Record settings : Type := mkSettings {
  DEBUG_WRAPPER : bool;
  HEXLIFY_PACKETS : bool;
  FLUSH : bool;
  XPRA_WRAPPER_FAULT_INJECTION_RATE : option Z;
  SIGNAMES : Z -> option string;
  hexstr_str32 : PacketElement -> string
}.

Definition FAULT_RATE (cfg : settings) : Z :=
  envint (XPRA_WRAPPER_FAULT_INJECTION_RATE cfg) 0.

(** What is shared by every object of the process: the fault counter, the
    installed handler of termination signals, and the calls made so far. *)
Record globals : Type := mkGlobals {
  _counter : Z;
  os_signal_handler : option callable;
  calls : list event
}.

Record world (O : Type) : Type := mkWorld {
  glob : globals;
  self : O
}.
Arguments mkWorld {O} glob self.
Arguments glob {O} w.
Arguments self {O} w.

Definition set_counter (c : Z) (g : globals) : globals :=
  mkGlobals c (os_signal_handler g) (calls g).
Definition set_handler (f : callable) (g : globals) : globals :=
  mkGlobals (_counter g) (Some f) (calls g).
Definition add_call (e : event) (g : globals) : globals :=
  mkGlobals (_counter g) (os_signal_handler g) (calls g ++ [e]).

Definition on_glob {O : Type} (f : globals -> globals) (w : world O) : world O :=
  mkWorld (f (glob w)) (self w).
Definition on_self {O : Type} (f : O -> O) (w : world O) : world O :=
  mkWorld (glob w) (f (self w)).

Definition emit {O : Type} (e : event) : M (world O) unit :=
  modify (on_glob (add_call e)).

(** Modelled from the spec: [register_os_signals(callback, name)] of
    [xpra/gtk/signals], which is not among the sources: [callback] becomes
    the handler of the termination signals SIGINT and SIGTERM. *)
Definition do_register_os_signals {O : Type} (f : callable) : M (world O) unit :=
  (emit (register_os_signals f) ;; modify (on_glob (set_handler f)))%M.

Section WithSettings.

Variable cfg : settings.

(** [noop] of [xpra.common]: it does nothing. *)
Definition noop {O : Type} (p : option Protocol) : M (world O) unit := ret tt.

(** [p.raw_write(...)]: an attribute error when [p] is [None]. *)
Definition call_raw_write {O : Type} (p : option Protocol)
           (packet_type data : string) : M (world O) unit :=
  match p with
  | Some proto => emit (raw_write proto packet_type data)
  | None => raise AttributeError
  end.

(** [do_inject_fault(p)], defined when [FAULT_RATE > 0]. *)
Definition do_inject_fault {O : Type} (p : option Protocol) : M (world O) unit :=
  (modify (on_glob (fun g => set_counter (_counter g + 1) g)) ;;
   c <- gets (fun w => _counter (glob w)) ;;
   if c mod FAULT_RATE cfg =? 0 then
     emit (Log warn "injecting fault in %s") ;;
     call_raw_write p "junk" "Wrapper JUNK! added by fault injection code"
   else ret tt)%M.

(** [INJECT_FAULT = noop], and [do_inject_fault] if [FAULT_RATE > 0]. *)
Definition INJECT_FAULT {O : Type} : option Protocol -> M (world O) unit :=
  if FAULT_RATE cfg >? 0 then do_inject_fault else noop.

End WithSettings.

(** A result that does not touch the state. *)
Definition lift {S A : Type} (r : pyresult A) : M S A := fun s => (r, s).

(** [command.replace(a, b)] for one-character strings. *)
Fixpoint replace (a b : Ascii.ascii) (s : string) : string :=
  match s with
  | EmptyString => EmptyString
  | String c rest =>
      String (if Ascii.eqb c a then b else c) (replace a b rest)
  end.

(** [x in l] on strings. *)
Definition str_in (x : string) (l : list string) : bool :=
  existsb (String.eqb x) l.

(** *** class SubprocessCallee *)

Module SubprocessCallee.

(** The wrapped object, seen through [getattr(wo, attr, None)]. *)
Definition pyobject : Type := string -> option nat.

Record t : Type := mk {
  name : string;
  method_whitelist : option (list string);
  wrapped_object : option pyobject;
  send_queue : SimpleQueue.t Packet;
  protocol : option Protocol
}.

Definition W : Type := world t.

Definition set_send_queue (q : SimpleQueue.t Packet) (o : t) : t :=
  mk (name o) (method_whitelist o) (wrapped_object o) q (protocol o).
Definition set_protocol (p : option Protocol) (o : t) : t :=
  mk (name o) (method_whitelist o) (wrapped_object o) (send_queue o) p.

(** [__init__]: the fields, then the registration of [handle_signal]. *)
Definition __init__ (wrapped : option pyobject) (whitelist : option (list string))
           (g : globals) : W :=
  snd (do_register_os_signals bound_handle_signal
         (mkWorld g (mk "" whitelist wrapped SimpleQueue.empty None))).

Section Methods.

Variable cfg : settings.

Definition net_stop : M W unit :=
  (emit (Log debug "net_stop() will call stop from main thread") ;;
   emit (idle_add bound_stop []))%M.

(** subclasses may override this method *)
Definition cleanup : M W unit := emit cleanup_hook.

Definition do_stop : M W unit :=
  (emit (Log debug "do_stop() stopping mainloop %s") ;;
   emit mainloop_quit)%M.

Definition stop : M W unit :=
  (p <- gets (fun w => protocol (self w)) ;;
   emit (Log debug "stop() protocol=%s") ;;
   cleanup ;;
   match p with
   | Some proto =>
       modify (on_self (set_protocol None)) ;;
       emit (protocol_close proto)
   | None => ret tt
   end ;;
   do_stop)%M.

Definition send (packet_type : string) (args : list PacketElement) : M W unit :=
  (let args :=
     if HEXLIFY_PACKETS cfg
     then EStr packet_type :: map (fun x => EStr (hexstr_str32 cfg x)) args
     else args in
   emit (Log debug "send: adding '%s' message (%s items already in queue)") ;;
   let packet := mkPacket packet_type args in
   modify (on_self (fun o => set_send_queue (SimpleQueue.put packet (send_queue o)) o)) ;;
   p <- gets (fun w => protocol (self w)) ;;
   match p with
   | Some proto => emit (source_has_more proto)
   | None => ret tt
   end ;;
   INJECT_FAULT cfg p)%M.

Definition get_packet : M W (option Packet * bool * bool) :=
  ('(item, more) <-
     try_except
       (q <- gets (fun w => send_queue (self w)) ;;
        '(item, rest) <- lift (SimpleQueue.get false q) ;;
        modify (on_self (set_send_queue rest)) ;;
        n <- gets (fun w => SimpleQueue.qsize (send_queue (self w))) ;;
        ret (Some item, n >? 0))
       (fun e => match e with
                 | Empty => Some (ret (None, false))
                 | _ => None
                 end) ;;
   ret (item, false, more))%M.

Definition handle_signal (sig : Z) : M W unit :=
  (do_register_os_signals bound_signal_stop ;;
   let signame :=
     match SIGNAMES cfg sig with
     | Some n => EStr n
     | None => EInt sig
     end in
   emit (Log debug "handle_signal(%s) calling stop from main thread") ;;
   send "signal" [signame] ;;
   emit (timeout_add 0 bound_cleanup) ;;
   emit (timeout_add 150 bound_stop))%M.

Definition signal_stop (sig : Z) : M W unit :=
  (emit (Log debug "signal_stop(%s) calling stop") ;;
   stop)%M.

Definition process_packet (proto : Protocol) (packet : Packet) : M W unit :=
  (command <- lift (get_str packet 0) ;;
   if (command =? CONNECTION_LOST)%string then
     emit (Log debug "connection-lost: %s, calling stop") ;;
     net_stop
   else if (command =? GIBBERISH)%string then
     emit (Log warn "Warning: gibberish received:") ;;
     _ <- lift (get_str packet 1) ;;
     emit (Log warn " %s") ;;
     emit (Log warn " stopping") ;;
     net_stop
   else if (command =? "stop")%string then
     emit (Log debug "received stop message") ;;
     net_stop
   else if (command =? "exit")%string then
     emit (Log debug "received exit message") ;;
     raise (SystemExit 0)
   else
     let attr := replace "-"%char "_"%char command in
     whitelist <- gets (fun w => method_whitelist (self w)) ;;
     if match whitelist with
        | Some wl => negb (str_in attr wl)
        | None => false
        end
     then emit (Log warn "invalid command %r, not in whitelist: %s")
     else
       wo <- gets (fun w => wrapped_object (self w)) ;;
       match wo with
       | None =>
           emit (Log debug "wrapped object is no more, ignoring method call '%s'")
       | Some obj =>
           emit (getattr_wrapped attr) ;;
           match obj attr with
           | None =>
               emit (Log warn "unknown command: '%s'") ;;
               emit (Log warn " packet: '%s'")
           | Some method =>
               (if DEBUG_WRAPPER cfg
                then emit (Log debug "calling %s.%s%s")
                else ret tt) ;;
               emit (idle_add (wrapped_method attr method) (pargs packet)) ;;
               INJECT_FAULT cfg (Some proto)
           end
       end)%M.

(** Modelled from the spec: the delivery of an OS termination signal,
    which calls the handler that [register_os_signals] installed
    last. *)
Definition deliver_signal (sig : Z) : M W unit :=
  (h <- gets (fun w => os_signal_handler (glob w)) ;;
   match h with
   | Some bound_handle_signal => handle_signal sig
   | Some bound_signal_stop => signal_stop sig
   | _ => ret tt
   end)%M.

End Methods.

End SubprocessCallee.

(** *** class SubprocessCaller *)

Module SubprocessCaller.

Definition registrations : Type := list (callable * list PacketElement).

Record t : Type := mk {
  process : option Popen;
  protocol : option Protocol;
  description : string;
  send_queue : SimpleQueue.t Packet;
  signal_callbacks : list (string * registrations)
}.

Definition W : Type := world t.

Definition set_send_queue (q : SimpleQueue.t Packet) (o : t) : t :=
  mk (process o) (protocol o) (description o) q (signal_callbacks o).
Definition set_signal_callbacks (c : list (string * registrations)) (o : t) : t :=
  mk (process o) (protocol o) (description o) (send_queue o) c.

(** [d.get(key, [])] *)
Fixpoint dict_get (key : string) (d : list (string * registrations)) : registrations :=
  match d with
  | [] => []
  | (k, v) :: rest => if (k =? key)%string then v else dict_get key rest
  end.

(** [d.setdefault(key, []).append(x)] *)
Fixpoint setdefault_append (key : string) (x : callable * list PacketElement)
         (d : list (string * registrations)) : list (string * registrations) :=
  match d with
  | [] => [(key, [x])]
  | (k, v) :: rest =>
      if (k =? key)%string then (k, v ++ [x]) :: rest
      else (k, v) :: setdefault_append key x rest
  end.

(** gobject style signal registration *)
Definition connect (signal : string) (cb : callable) (args : list PacketElement)
  : M W unit :=
  modify (on_self (fun o =>
    set_signal_callbacks (setdefault_append signal (cb, args) (signal_callbacks o)) o)).

Definition __init__ (description : string) (g : globals) : W :=
  snd ((connect CONNECTION_LOST bound_connection_lost [] ;;
        connect GIBBERISH bound_gibberish [])%M
         (mkWorld g (mk None None description SimpleQueue.empty []))).

Section Methods.

Variable cfg : settings.

Definition abort_test (action : string) : M W unit :=
  (p <- gets (fun w => process (self w)) ;;
   match p with
   | None => raise ConnectionClosedException
   | Some proc =>
       match poll proc with
       | Some returncode =>
           if truthy returncode then raise ConnectionClosedException else ret tt
       | None => ret tt
       end
   end)%M.

Definition get_packet : M W (option Packet * bool * bool) :=
  ('(item, more) <-
     try_except
       (q <- gets (fun w => send_queue (self w)) ;;
        '(item, rest) <- lift (SimpleQueue.get false q) ;;
        modify (on_self (set_send_queue rest)) ;;
        n <- gets (fun w => SimpleQueue.qsize (send_queue (self w))) ;;
        ret (Some item, n >? 0))
       (fun e => match e with
                 | Empty => Some (ret (None, false))
                 | _ => None
                 end) ;;
   ret (item, false, more))%M.

Definition send (packet_type : string) (packet_data : list PacketElement)
  : M W unit :=
  (let packet := mkPacket packet_type packet_data in
   modify (on_self (fun o => set_send_queue (SimpleQueue.put packet (send_queue o)) o)) ;;
   p <- gets (fun w => protocol (self w)) ;;
   match p with
   | Some proto =>
       emit (source_has_more proto) ;;
       if FLUSH cfg then
         match _conn proto with
         | Some conn => if is_active conn then emit (conn_flush proto) else ret tt
         | None => ret tt
         end
       else ret tt
   | None => ret tt
   end ;;
   INJECT_FAULT cfg p)%M.

(** [GLib.idle_add(cb, self, *all_args)] for every registration, in
    order, where [all_args] is [list(args) + list(extra_args)]: the caller
    is the first argument of every callback. *)
Fixpoint fire_each (callbacks : registrations) (extra_args : list PacketElement)
  : M W unit :=
  match callbacks with
  | [] => ret tt
  | (cb, args) :: rest =>
      (let all_args := args ++ extra_args in
       emit (idle_add_args cb (caller_instance :: map element all_args)) ;;
       fire_each rest extra_args)%M
  end.

Definition _fire_callback (signal_name : string) (extra_args : list PacketElement)
  : M W unit :=
  (callbacks <- gets (fun w => dict_get signal_name (signal_callbacks (self w))) ;;
   emit (Log debug "firing callback for '%s': %s") ;;
   fire_each callbacks extra_args)%M.

Definition process_packet (proto : Protocol) (packet : Packet) : M W unit :=
  ((if DEBUG_WRAPPER cfg
    then emit (Log debug "process_packet(%s, %s)")
    else ret tt) ;;
   signal_name <- lift (get_str packet 0) ;;
   _fire_callback signal_name (pargs packet) ;;
   INJECT_FAULT cfg (Some proto))%M.

(** **** Stopping

    [terminate()] is a call on the process, and [close()] one on the
    protocol; either may raise, which [stop_process] and [stop_protocol]
    catch.  What they do is not for the caller to decide: the two outcomes
    are given by [terminate_fails] and [close_fails]. *)

(** The caller, and the processes on which [terminate()] was called. *)
Record stopping : Type := mkStopping {
  caller : W;
  terminate_calls : list Popen
}.

(** A computation of the caller, run in a [stopping] state. *)
Definition in_caller {A : Type} (m : M W A) : M stopping A :=
  fun s =>
    let (r, w') := m (caller s) in (r, mkStopping w' (terminate_calls s)).

Definition set_process (p : option Popen) (o : t) : t :=
  mk p (protocol o) (description o) (send_queue o) (signal_callbacks o).
Definition set_protocol (p : option Protocol) (o : t) : t :=
  mk (process o) p (description o) (send_queue o) (signal_callbacks o).

Definition call_terminate (proc : Popen) : M stopping unit :=
  modify (fun s => mkStopping (caller s) (terminate_calls s ++ [proc])).

Variable terminate_fails : Popen -> bool.
Variable close_fails : Protocol -> bool.

Definition stop_process : M stopping unit :=
  (in_caller (emit (Log debug "%s.stop_process() sending stop request to %s")) ;;
   p <- in_caller (gets (fun w => process (self w))) ;;
   match p with
   | None => ret tt
   | Some proc =>
       in_caller (modify (on_self (set_process None))) ;;
       match poll proc with
       | None =>
           call_terminate proc ;;
           if terminate_fails proc then
             in_caller (emit (Log debug "stop_process() proc=%s")) ;;
             in_caller
               (emit (Log warn "Warning: failed to stop the wrapped subprocess %s: %s"))
           else ret tt
       | Some _ => ret tt
       end
   end)%M.

Definition stop_protocol : M stopping unit :=
  (p <- in_caller (gets (fun w => protocol (self w))) ;;
   match p with
   | Some p =>
       in_caller (modify (on_self (set_protocol None))) ;;
       in_caller (emit (Log debug "%s.stop_protocol() calling %s")) ;;
       in_caller (emit (protocol_close p)) ;;
       if close_fails p then
         in_caller (emit (Log debug "stop_protocol() protocol=%s")) ;;
         in_caller
           (emit (Log warn "Warning: failed to close the subprocess connection %s: %s"))
       else ret tt
   | None => ret tt
   end)%M.

Definition stop : M stopping unit := (stop_process ;; stop_protocol)%M.

Definition cleanup : M stopping unit := stop.

(** [connection_lost], called with the arguments [args]. *)
Definition connection_lost {A : Type} (args : list A) : M stopping unit :=
  (in_caller (emit (Log debug "connection_lost%s")) ;; stop)%M.

(** [gibberish], called with the arguments [args]: [args[1]] is looked at
    before the second line is logged. *)
Definition gibberish {A : Type} (args : list A) : M stopping unit :=
  (in_caller (emit (Log warn "%s stopping on gibberish:")) ;;
   match nth_error args 1 with
   | None => raise IndexError
   | Some _ => in_caller (emit (Log warn " %s")) ;; stop
   end)%M.

(** [subprocess_exit]: beware, this may fire more than once. *)
Definition subprocess_exit : M W unit :=
  (emit (Log debug "subprocess_exit%s command=%s") ;;
   _fire_callback "exit" [])%M.

End Methods.

End SubprocessCaller.

(** *** Observations on runs *)

(** The world after the calls [l] have been made, in order. *)
Definition after_calls {O : Type} (l : list event) (w : world O) : world O :=
  fold_left (fun w e => on_glob (add_call e) w) l w.

(** The reserved command tags. *)
Definition reserved_tags : list string :=
  ["stop"; "exit"; "signal"; CONNECTION_LOST; GIBBERISH]%string.

(** The whitelist, when there is one, holds the name. *)
Definition whitelisted (whitelist : option (list string)) (attr : string) : bool :=
  match whitelist with
  | Some wl => str_in attr wl
  | None => true
  end.

(** A call that looks up, or schedules, a method of the wrapped object. *)
Definition touches_wrapped (e : event) : bool :=
  match e with
  | getattr_wrapped _ => true
  | idle_add (wrapped_method _ _) _ => true
  | _ => false
  end.

(** A call that stops the callee or closes its connection, now or later. *)
Definition stops_or_closes (e : event) : bool :=
  match e with
  | idle_add bound_stop _ => true
  | timeout_add _ bound_stop => true
  | protocol_close _ => true
  | mainloop_quit => true
  | _ => false
  end.

(** A call that runs a part of [stop()] inline. *)
Definition runs_stop (e : event) : bool :=
  match e with
  | cleanup_hook => true
  | protocol_close _ => true
  | mainloop_quit => true
  | _ => false
  end.



(** The calls of [do_inject_fault] when the counter stands at [c] before
    it. *)
Definition fault_calls (cfg : settings) (p : Protocol) (c : Z) : list event :=
  if (c + 1) mod FAULT_RATE cfg =? 0
  then [Log warn "injecting fault in %s";
        raw_write p "junk" "Wrapper JUNK! added by fault injection code"]
  else [].

(** The packet that the callee's [send] builds. *)
Definition sent_packet (cfg : settings) (packet_type : string)
           (args : list PacketElement) : Packet :=
  mkPacket packet_type
    (if HEXLIFY_PACKETS cfg
     then EStr packet_type :: map (fun x => EStr (hexstr_str32 cfg x)) args
     else args).

(** [SIGNAMES.get(sig, sig)] *)
Definition signame (cfg : settings) (sig : Z) : PacketElement :=
  match SIGNAMES cfg sig with
  | Some n => EStr n
  | None => EInt sig
  end.







(** *** Sample configurations and objects *)

Definition no_globals : globals := mkGlobals 0 None [].

(** The default configuration: nothing set in the environment. *)
Definition default_settings : settings :=
  mkSettings false false false None (fun _ => None) (fun _ => EmptyString).


Definition proto0 : Protocol := mkProtocol 0 (Some (mkConnection true)).

(** An object with the two methods [echo] and [signal]. *)
Definition echo_object : SubprocessCallee.pyobject :=
  fun attr =>
    if (attr =? "echo")%string then Some 1%nat
    else if (attr =? "signal")%string then Some 2%nat
    else None.

(** A started callee wrapping [echo_object], without a whitelist. *)
Definition echo_callee : SubprocessCallee.W :=
  on_self (SubprocessCallee.set_protocol (Some proto0))
          (SubprocessCallee.__init__ (Some echo_object) None no_globals).

(** A started caller whose subprocess has exited with the given status. *)
Definition exited_caller (returncode : Z) : SubprocessCaller.W :=
  mkWorld no_globals
    (SubprocessCaller.mk (Some (mkPopen (Some returncode))) (Some proto0)
       "wrapper" SimpleQueue.empty []).

(** *** The module functions *)

(** The calls that [setup_fastencoder_nocompression] makes on its
    protocol, and its log lines. *)
Inductive protocol_call : Type :=
| enable_encoder (encoder : string)
| enable_compressor (compressor : string)
| log_line (fmt : string).

(** The loop over the encoders: the first one that [enable_encoder] takes
    without raising ends it. *)
Fixpoint enable_first (accepts : string -> bool) (encoders : list string)
  : list protocol_call :=
  match encoders with
  | [] => []
  | encoder :: rest =>
      if accepts encoder
      then [enable_encoder encoder; log_line "protocol using %s"]
      else enable_encoder encoder :: log_line "failed to enable %s: %s"
             :: enable_first accepts rest
  end.

Inductive setup_result : Type :=
| AssertionError (msg : string)
| setup_done (made : list protocol_call).

(** [setup_fastencoder_nocompression(protocol)].  The list
    [get_enabled_encoders(PERFORMANCE_ORDER)] is of [xpra/net/packet_encoding],
    which is not among the sources, and whether [protocol.enable_encoder]
    raises is up to the protocol: [accepts]. *)
Definition setup_fastencoder_nocompression (encoders : list string)
           (accepts : string -> bool) : setup_result :=
  if len encoders >? 0
  then setup_done (enable_first accepts encoders ++ [enable_compressor "none"])
  else AssertionError "no packet encoders available!?".

(** The encoders on which [enable_encoder] was called, in order. *)
Definition encoders_tried (made : list protocol_call) : list string :=
  flat_map (fun c => match c with
                     | enable_encoder e => [e]
                     | _ => []
                     end) made.

(** A [dict] with string keys, as the lookup [d.get(k)]. *)
Definition dict (V : Type) : Type := string -> option V.

(** [d[k] = v] *)
Definition setitem {V : Type} (k : string) (v : V) (d : dict V) : dict V :=
  fun k' => if (k' =? k)%string then Some v else d k'.

(** The values of the keyword arguments of [subprocess.Popen] that
    [exec_kwargs] deals in: one passed in by its caller, the file
    [open(os.devnull, 'w')], the descriptor [sys.stderr.fileno()], and a
    [STARTUPINFO] with its two fields. *)
Inductive kwvalue : Type :=
| passed (v : nat)
| devnull_file
| fileno (fd : Z)
| STARTUPINFO (dwFlags wShowWindow : Z).

(** What [exec_kwargs] reads of the platform: [WIN32] of [xpra/os_util],
    [REDIRECT_OUTPUT] of [xpra/platform/win32], the module constant
    [WIN32_SHOWWINDOW], [sys.stderr] (its descriptor, when there is one) and
    [subprocess.STARTF_USESHOWWINDOW]. *)
Record platform : Type := mkPlatform {
  WIN32 : bool;
  REDIRECT_OUTPUT : bool;
  WIN32_SHOWWINDOW : bool;
  sys_stderr : option Z;
  STARTF_USESHOWWINDOW : Z
}.

(** [exec_kwargs], called with keyword arguments. *)
Definition exec_kwargs (pf : platform) (kwargs : dict kwvalue) : dict kwvalue :=
  let kwargs :=
    if WIN32 pf then
      let kwargs :=
        if REDIRECT_OUTPUT pf then
          match kwargs "stderr"%string with
          | None => setitem "stderr" devnull_file kwargs
          | Some _ => kwargs
          end
        else kwargs in
      if negb (WIN32_SHOWWINDOW pf) then
        setitem "startupinfo"
                (STARTUPINFO (Z.lor 0 (STARTF_USESHOWWINDOW pf)) 0) kwargs
      else kwargs
    else kwargs in
  match kwargs "stderr"%string, sys_stderr pf with
  | None, Some fd => setitem "stderr" (fileno fd) kwargs
  | _, _ => kwargs
  end.

(** [exec_env()]; [get_exec_env()] is of [xpra/util/env], which is not among
    the sources: its result is the argument. *)
Definition exec_env (get_exec_env : dict string) : dict string :=
  setitem "XPRA_FORCE_COLOR_LOG" "1"%string
    (setitem "XPRA_SKIP_UI" "1"%string get_exec_env).

(** [SubprocessCaller.get_env(self)] *)
Definition get_env (get_exec_env : dict string) (o : SubprocessCaller.t)
  : dict string :=
  setitem "XPRA_WAIT_FOR_INPUT" "0"%string
    (setitem "XPRA_FIX_UNICODE_OUT" "0"%string
       (setitem "XPRA_LOG_PREFIX" (SubprocessCaller.description o ++ " ")%string
          (exec_env get_exec_env))).

(** *** Runs of more than one call *)

(** [send] for each message of a list, in order, up to the first one that
    raises. *)
Fixpoint send_all (cfg : settings) (msgs : list (string * list PacketElement))
  : M SubprocessCallee.W unit :=
  match msgs with
  | [] => ret tt
  | (packet_type, args) :: rest =>
      (SubprocessCallee.send cfg packet_type args ;; send_all cfg rest)%M
  end.

(** [get_packet], [n] times over. *)
Fixpoint get_packets (n : nat)
  : M SubprocessCallee.W (list (option Packet * bool * bool)) :=
  match n with
  | O => ret []
  | S k =>
      (r <- SubprocessCallee.get_packet ;;
       rs <- get_packets k ;;
       ret (r :: rs))%M
  end.

(** What the write loop is handed for a queue: every packet in turn, with
    the flag that tells whether more are waiting, and then nothing. *)
Fixpoint handed_over (q : list Packet) : list (option Packet * bool * bool) :=
  match q with
  | [] => [(None, false, false)]
  | p :: rest =>
      (Some p, false, match rest with [] => false | _ => true end)
        :: handed_over rest
  end.

(** [stop()], [n] times over. *)
Fixpoint stops (n : nat) : M SubprocessCallee.W unit :=
  match n with
  | O => ret tt
  | S k => (SubprocessCallee.stop ;; stops k)%M
  end.

(** The number of calls of one kind made so far. *)
Definition count_calls {O : Type} (kind : event -> bool) (w : world O) : nat :=
  List.length (filter kind (calls (glob w))).

Definition is_protocol_close (e : event) : bool :=
  match e with
  | protocol_close _ => true
  | _ => false
  end.

Definition is_cleanup (e : event) : bool :=
  match e with
  | cleanup_hook => true
  | _ => false
  end.

Definition is_mainloop_quit (e : event) : bool :=
  match e with
  | mainloop_quit => true
  | _ => false
  end.

Definition is_timeout_add (e : event) : bool :=
  match e with
  | timeout_add _ _ => true
  | _ => false
  end.

(** The [GLib.idle_add] calls among some calls. *)
Definition scheduled (l : list event) : list event :=
  filter (fun e => match e with
                   | idle_add _ _ => true
                   | idle_add_args _ _ => true
                   | _ => false
                   end) l.

(** The call that [_fire_callback] schedules for one registration:
    [cb(self, *args, *extra_args)]. *)
Definition fired (extra_args : list PacketElement)
           (r : callable * list PacketElement) : event :=
  idle_add_args (fst r) (caller_instance :: map element (snd r ++ extra_args)).

(** Fault injection at rate 1. *)
Definition fault_rate_1 : settings :=
  mkSettings false false false (Some 1) (fun _ => None) (fun _ => EmptyString).

(** A callee wrapping [echo_object] that was not started. *)
Definition new_callee : SubprocessCallee.W :=
  SubprocessCallee.__init__ (Some echo_object) None no_globals.

(** A caller that was started, with its subprocess still running. *)
Definition running_caller : SubprocessCaller.W :=
  on_self (fun o => SubprocessCaller.set_protocol (Some proto0)
                      (SubprocessCaller.set_process (Some (mkPopen None)) o))
          (SubprocessCaller.__init__ "wrapper" no_globals).


(** The process that [stop_process] has to terminate: the one that is set
    and still runs. *)
Definition to_terminate (o : SubprocessCaller.t) : list Popen :=
  match SubprocessCaller.process o with
  | Some proc => match poll proc with
                 | None => [proc]
                 | Some _ => []
                 end
  | None => []
  end.

(** The protocol that [stop_protocol] has to close. *)
Definition to_close (o : SubprocessCaller.t) : list event :=
  match SubprocessCaller.protocol o with
  | Some p => [protocol_close p]
  | None => []
  end.

(** The [close()] calls among some calls. *)
Definition closes (l : list event) : list event := filter is_protocol_close l.

(** A handler of the caller, run in the state [w1] with the calls [tc] of
    [terminate()] made so far, stops the caller as it was in [w0]: it
    returns, the process is terminated if it ran and the protocol closed if
    there was one, and both are unset. *)
Definition stopped_by (handler : M SubprocessCaller.stopping unit)
           (w0 w1 : SubprocessCaller.W) (tc : list Popen) : Prop :=
  exists s' l,
    handler (SubprocessCaller.mkStopping w1 tc) = (Ret tt, s') /\
    SubprocessCaller.process (self (SubprocessCaller.caller s')) = None /\
    SubprocessCaller.protocol (self (SubprocessCaller.caller s')) = None /\
    SubprocessCaller.terminate_calls s' = tc ++ to_terminate (self w0) /\
    calls (glob (SubprocessCaller.caller s')) = calls (glob w1) ++ l /\
    closes l = to_close (self w0).

(** A process whose [terminate()] raises, a protocol whose [close()]
    raises. *)
Definition always_fails {A : Type} (x : A) : bool := true.
End subprocess_wrapper.

(** ** Proof steps *)

(** Case analysis on the next comparison [a <? b] that the goal branches
    on. *)
Ltac case_ltb :=
  match goal with
  | |- context [if ?a <? ?b then _ else _] => destruct (Z.ltb_spec a b)
  end.

(** * Properties *)

Import header.
Import subprocess_wrapper.

(** ** The model on sample inputs *)

Example encode_header_of_200 :
  encode_hybi_header 1 200 false true = Ret [Byte.x81; Byte.x7e; Byte.x00; Byte.xc8].
Proof. reflexivity. Qed.

Example encode_header_of_70000_masked :
  encode_hybi_header 2 70000 true false =
    Ret [Byte.x02; Byte.xff; Byte.x00; Byte.x00; Byte.x00; Byte.x00;
         Byte.x00; Byte.x01; Byte.x11; Byte.x70].
Proof. reflexivity. Qed.

Example encode_header_bad_opcode :
  encode_hybi_header 16 0 false true = Raise ValueError.
Proof. reflexivity. Qed.

Example decode_text_frame :
  decode_hybi text_frame = Ret (Some (1, [Byte.x68; Byte.x69], 4, true)).
Proof. reflexivity. Qed.

(** The masked "Hello" of RFC 6455, section 5.7. *)
Example decode_masked_hello :
  decode_hybi [Byte.x81; Byte.x85; Byte.x37; Byte.xfa; Byte.x21; Byte.x3d;
               Byte.x7f; Byte.x9f; Byte.x4d; Byte.x51; Byte.x58] =
    Ret (Some (1, [Byte.x48; Byte.x65; Byte.x6c; Byte.x6c; Byte.x6f], 11, true)).
Proof. reflexivity. Qed.

Example decode_one_byte_short :
  decode_hybi [Byte.x81; Byte.x02; Byte.x68] = Ret None.
Proof. reflexivity. Qed.

Example replace_hyphens :
  replace "-" "_" "no-such-method" = "no_such_method"%string.
Proof. reflexivity. Qed.

Example get_packet_of_two :
  SubprocessCallee.get_packet
    (on_self (SubprocessCallee.set_send_queue [mkPacket "a" []; mkPacket "b" []])
             echo_callee) =
    (Ret (Some (mkPacket "a" []), false, true),
     on_self (SubprocessCallee.set_send_queue [mkPacket "b" []]) echo_callee).
Proof. reflexivity. Qed.

(** ** Lists and slices *)

Lemma len_cons {A} (x : A) l : len (x :: l) = len l + 1.
Proof. unfold len. cbn [List.length]. lia. Qed.

Lemma len_app {A} (l1 l2 : list A) : len (l1 ++ l2) = len l1 + len l2.
Proof. unfold len. rewrite List.length_app. lia. Qed.

Lemma len_nonneg {A} (l : list A) : 0 <= len l.
Proof. unfold len. lia. Qed.

Lemma length_slice {A} (a b : Z) (l : list A) :
  0 <= a <= b -> b <= len l -> List.length (slice a b l) = Z.to_nat (b - a).
Proof.
  unfold slice, len. intros Hab Hb.
  rewrite List.length_firstn, List.length_skipn. lia.
Qed.

Lemma slice_firstn {A} (a b : Z) (n : nat) (l : list A) :
  (Z.to_nat b <= n)%nat -> slice a b (firstn n l) = slice a b l.
Proof.
  unfold slice. intros Hb.
  rewrite List.skipn_firstn_comm, List.firstn_firstn.
  f_equal. lia.
Qed.

Lemma slice_app_mid {A} (l1 l2 l3 : list A) :
  slice (len l1) (len l1 + len l2) (l1 ++ l2 ++ l3) = l2.
Proof.
  unfold slice, len.
  rewrite Nat2Z.id.
  rewrite List.skipn_app, Stdlib.Lists.List.skipn_all, Nat.sub_diag. cbn [app skipn].
  replace (Z.to_nat (Z.of_nat (List.length l1) + Z.of_nat (List.length l2)) - List.length l1)%nat
    with (List.length l2 + 0)%nat by lia.
  rewrite List.firstn_app_2. cbn [firstn]. apply List.app_nil_r.
Qed.

Lemma unpack_uint_slice (n : nat) (a b : Z) (buf : list byte) :
  0 <= a -> b = a + Z.of_nat n -> b <= len buf ->
  struct.unpack_uint n (slice a b buf) = Ret (struct.be_combine (slice a b buf)).
Proof.
  intros Ha Hb Hlen. unfold struct.unpack_uint.
  rewrite length_slice by lia.
  replace (Z.to_nat (b - a)) with n by lia.
  rewrite Nat.eqb_refl. reflexivity.
Qed.

Lemma decode_hybi_eq (buf : list byte) :
  decode_hybi buf =
    if len buf <? 2 then Ret None
    else if len buf <? declared_header_len buf then Ret None
    else if len buf <? declared_header_len buf + declared_payload_len buf then Ret None
    else Ret (Some (Z.land (byte.unsigned (nth 0 buf Byte.x00)) 0x0f,
                    (if declares_mask buf
                     then mask.hybi_unmask buf (declared_header_len buf - 4)
                                           (declared_payload_len buf)
                     else slice (declared_header_len buf)
                                (declared_header_len buf + declared_payload_len buf) buf),
                    declared_header_len buf + declared_payload_len buf,
                    truthy (Z.land (byte.unsigned (nth 0 buf Byte.x00)) 0x80))).
Proof.
  destruct buf as [|b1 [|b2 rest]]; [reflexivity | reflexivity |].
  unfold decode_hybi, declared_header_len, declared_payload_len, declares_mask, length_code.
  change (slice 0 2 (b1 :: b2 :: rest)) with [b1; b2].
  cbn [struct.unpack_BB pybind nth].
  assert (Hlen : 2 <= len (b1 :: b2 :: rest))
    by (rewrite !len_cons; pose proof (len_nonneg rest); lia).
  remember (b1 :: b2 :: rest) as buf eqn:Hbuf.
  remember (len buf) as blen eqn:Hblen.
  destruct (Z.ltb_spec blen 2) as [|_]; [lia|].
  unfold struct.unpack_H, struct.unpack_Q.
  destruct (truthy (Z.land (byte.unsigned b2) 128)) eqn:Hmask;
    destruct (Z.land (byte.unsigned b2) 127 =? 126) eqn:H126;
    try destruct (Z.land (byte.unsigned b2) 127 =? 127) eqn:H127;
    cbn [andb];
    repeat first
      [ progress cbn [pybind]
      | rewrite unpack_uint_slice by lia
      | case_ltb; try lia ];
    reflexivity.
Qed.

(** ** Bit flags *)

Lemma land_ones_lor_flag (k n x : Z) (f : bool) :
  0 <= k <= n -> 0 <= x < 2 ^ k ->
  Z.land (Z.lor x (2 ^ n * Z.b2z f)) (Z.ones k) = x.
Proof.
  intros Hk Hx.
  rewrite Z.land_lor_distr_l, !Z.land_ones by lia.
  rewrite (Z.mod_small x) by lia.
  replace (2 ^ n) with (2 ^ (n - k) * 2 ^ k)
    by (rewrite <- Z.pow_add_r by lia; f_equal; lia).
  rewrite <- Z.mul_assoc, (Z.mul_comm (2 ^ k)), Z.mul_assoc, Z.mod_mul by lia.
  apply Z.lor_0_r.
Qed.

Lemma land_pow2_small (n x : Z) :
  0 <= n -> 0 <= x < 2 ^ n -> Z.land x (2 ^ n) = 0.
Proof.
  intros Hn Hx.
  destruct (Z.eq_dec x 0) as [->|Hx0]; [apply Z.land_0_l|].
  apply Z.bits_inj'. intros i Hi. rewrite Z.land_spec, Z.bits_0.
  destruct (Z.eq_dec i n) as [->|Hne].
  - rewrite (Z.bits_above_log2 x n); [reflexivity|lia|].
    apply Z.log2_lt_pow2; lia.
  - rewrite Z.pow2_bits_false by lia. apply andb_false_r.
Qed.

Lemma truthy_land_flag (n x : Z) (f : bool) :
  0 <= n -> 0 <= x < 2 ^ n ->
  truthy (Z.land (Z.lor x (2 ^ n * Z.b2z f)) (2 ^ n)) = f.
Proof.
  intros Hn Hx.
  rewrite Z.land_lor_distr_l, land_pow2_small by lia.
  assert (0 < 2 ^ n) by lia.
  unfold truthy.
  destruct f; cbn [Z.b2z].
  - rewrite Z.mul_1_r, Z.land_diag, Z.lor_0_l.
    destruct (Z.eqb_spec (2 ^ n) 0); [lia | reflexivity].
  - rewrite Z.mul_0_r. reflexivity.
Qed.

Lemma lor_flag_range (n x : Z) (f : bool) :
  0 <= n -> 0 <= x < 2 ^ n -> 0 <= Z.lor x (2 ^ n * Z.b2z f) < 2 ^ (n + 1).
Proof.
  intros Hn Hx.
  assert (0 < 2 ^ n) by lia.
  assert (2 ^ (n + 1) = 2 * 2 ^ n) as -> by (rewrite Z.pow_add_r by lia; lia).
  destruct f; cbn [Z.b2z].
  - rewrite Z.mul_1_r.
    rewrite <- Z.lxor_lor by (apply land_pow2_small; lia).
    rewrite <- Z.add_nocarry_lxor by (apply land_pow2_small; lia). lia.
  - rewrite Z.mul_0_r, Z.lor_0_r. lia.
Qed.

Lemma valid_opcode_iff (opcode : Z) :
  Z.land opcode 0x0f = opcode <-> 0 <= opcode <= 15.
Proof.
  replace (Z.land opcode 0x0f) with (opcode mod 16)
    by (symmetry; apply (Z.land_ones opcode 4); lia).
  split; intros H.
  - pose proof (Z.mod_pos_bound opcode 16). lia.
  - apply Z.mod_small. lia.
Qed.

(** ** Big-endian fields *)

Lemma length_be_split (n : nat) (v : Z) : List.length (struct.be_split n v) = n.
Proof. unfold struct.be_split. rewrite List.length_rev. apply length_le_split. Qed.

Lemma be_combine_split (n : nat) (v : Z) :
  0 <= v < 2 ^ (8 * Z.of_nat n) -> struct.be_combine (struct.be_split n v) = v.
Proof.
  intros Hv. unfold struct.be_combine, struct.be_split.
  rewrite List.rev_involutive, le_combine_split.
  apply Z.mod_small. replace (Z.of_nat n * 8) with (8 * Z.of_nat n) by lia. exact Hv.
Qed.

Lemma pack_uint_ok (n : nat) (v : Z) :
  0 <= v < 2 ^ (8 * Z.of_nat n) -> struct.pack_uint n v = Ret (struct.be_split n v).
Proof.
  intros [Hlo Hhi]. unfold struct.pack_uint.
  destruct (Z.leb_spec 0 v); [|lia].
  destruct (Z.ltb_spec v (2 ^ (8 * Z.of_nat n))); [reflexivity | lia].
Qed.

Lemma pack_uint_out_of_range (n : nat) (v : Z) :
  ~ 0 <= v < 2 ^ (8 * Z.of_nat n) -> struct.pack_uint n v = Raise StructError.
Proof.
  intros Hv. unfold struct.pack_uint.
  destruct (Z.leb_spec 0 v); [|reflexivity].
  destruct (Z.ltb_spec v (2 ^ (8 * Z.of_nat n))); [lia | reflexivity].
Qed.

Lemma slice_app_mid' {A} (a b : Z) (l1 l2 l3 : list A) :
  a = len l1 -> b = a + len l2 -> slice a b (l1 ++ l2 ++ l3) = l2.
Proof. intros -> ->. apply slice_app_mid. Qed.

Lemma encode_hybi_header_ok (opcode payload_len : Z) (has_mask fin : bool) :
  0 <= opcode <= 15 -> 0 <= payload_len < 2 ^ 64 ->
  encode_hybi_header opcode payload_len has_mask fin =
    Ret ([byte.of_Z (Z.lor opcode (0x80 * Z.b2z fin));
          byte.of_Z (Z.lor (code_of payload_len) (0x80 * Z.b2z has_mask))]
           ++ ext_of payload_len).
Proof.
  intros Hop HL. unfold encode_hybi_header, code_of, ext_of.
  rewrite (proj2 (valid_opcode_iff opcode) Hop), Z.eqb_refl. cbn [negb].
  assert (Hb1 : 0 <= Z.lor opcode (0x80 * Z.b2z fin) < 2 ^ (8 * Z.of_nat 1)).
  { apply (lor_flag_range 7); lia. }
  assert (Hb2 : forall c, 0 <= c < 2 ^ 7 ->
                     0 <= Z.lor c (0x80 * Z.b2z has_mask) < 2 ^ (8 * Z.of_nat 1)).
  { intros c Hc. apply (lor_flag_range 7); lia. }
  unfold struct.pack_BB, struct.pack_BBH, struct.pack_BBQ.
  destruct (Z.leb_spec payload_len 125); [|destruct (Z.ltb_spec payload_len 65536)];
    rewrite !pack_uint_ok by (try apply Hb2; try assumption; cbn; lia);
    reflexivity.
Qed.

Lemma unsigned_of_Z_small (x : Z) : 0 <= x < 2 ^ 8 -> byte.unsigned (byte.of_Z x) = x.
Proof. intros Hx. rewrite byte.unsigned_of_Z. apply Z.mod_small. exact Hx. Qed.

Lemma code_of_range (payload_len : Z) : 0 <= payload_len -> 0 <= code_of payload_len < 2 ^ 7.
Proof.
  intros HL. unfold code_of. change (2 ^ 7) with 128.
  destruct (Z.leb_spec payload_len 125); [lia|].
  destruct (Z.ltb_spec payload_len 65536); lia.
Qed.

Lemma len_ext_of (payload_len : Z) :
  len (ext_of payload_len) = header_bytes payload_len - 2.
Proof.
  unfold ext_of, header_bytes, len.
  destruct (Z.leb_spec payload_len 125); [reflexivity|].
  destruct (Z.ltb_spec payload_len 65536), (Z.leb_spec payload_len 65535);
    try lia; rewrite length_be_split; reflexivity.
Qed.

Section EncodedFrame.

Variables (opcode payload_len : Z) (has_mask fin : bool) (rest : list byte).
Hypothesis Hop : 0 <= opcode <= 15.
Hypothesis HL : 0 <= payload_len < 2 ^ 64.

Let buf : list byte :=
  [byte.of_Z (Z.lor opcode (0x80 * Z.b2z fin));
   byte.of_Z (Z.lor (code_of payload_len) (0x80 * Z.b2z has_mask))]
    ++ ext_of payload_len ++ rest.

Lemma encoded_opcode : Z.land (byte.unsigned (nth 0 buf Byte.x00)) 0x0f = opcode.
Proof.
  subst buf. cbn [app nth].
  rewrite unsigned_of_Z_small by (apply (lor_flag_range 7); lia).
  apply (land_ones_lor_flag 4 7); lia.
Qed.

Lemma encoded_fin : truthy (Z.land (byte.unsigned (nth 0 buf Byte.x00)) 0x80) = fin.
Proof.
  subst buf. cbn [app nth].
  rewrite unsigned_of_Z_small by (apply (lor_flag_range 7); lia).
  apply (truthy_land_flag 7); lia.
Qed.

Lemma encoded_mask : declares_mask buf = has_mask.
Proof.
  subst buf. unfold declares_mask. cbn [app nth].
  pose proof (code_of_range payload_len (proj1 HL)).
  rewrite unsigned_of_Z_small by (apply (lor_flag_range 7); lia).
  apply (truthy_land_flag 7); lia.
Qed.

Lemma encoded_length_code : length_code buf = code_of payload_len.
Proof.
  subst buf. unfold length_code. cbn [app nth].
  pose proof (code_of_range payload_len (proj1 HL)).
  rewrite unsigned_of_Z_small by (apply (lor_flag_range 7); lia).
  apply (land_ones_lor_flag 7 7); lia.
Qed.

Lemma encoded_header_len :
  declared_header_len buf = header_bytes payload_len + (if has_mask then 4 else 0).
Proof.
  unfold declared_header_len. rewrite encoded_mask, encoded_length_code.
  unfold code_of, header_bytes.
  destruct (Z.leb_spec payload_len 125).
  - destruct (Z.eqb_spec payload_len 126), (Z.eqb_spec payload_len 127); lia.
  - destruct (Z.ltb_spec payload_len 65536), (Z.leb_spec payload_len 65535);
      try lia; cbn [Z.eqb Pos.eqb]; lia.
Qed.

Lemma encoded_payload_len : declared_payload_len buf = payload_len.
Proof.
  unfold declared_payload_len. rewrite encoded_length_code.
  unfold code_of. subst buf. unfold ext_of.
  destruct (Z.leb_spec payload_len 125).
  - destruct (Z.eqb_spec payload_len 126), (Z.eqb_spec payload_len 127); lia.
  - destruct (Z.ltb_spec payload_len 65536); cbn [Z.eqb Pos.eqb].
    + rewrite (slice_app_mid' 2 4 _ (struct.be_split 2 payload_len))
        by (unfold len; rewrite ?length_be_split; reflexivity).
      apply be_combine_split. cbn. lia.
    + rewrite (slice_app_mid' 2 10 _ (struct.be_split 8 payload_len))
        by (unfold len; rewrite ?length_be_split; reflexivity).
      apply be_combine_split. cbn. lia.
Qed.

End EncodedFrame.

Lemma log2_byte (a : Z) : 0 <= a < 2 ^ 8 -> Z.log2 a < 8.
Proof.
  intros Ha. destruct (Z.eq_dec a 0) as [->|]; [reflexivity|].
  apply Z.log2_lt_pow2; lia.
Qed.

Lemma lxor_byte_range (a b : Z) :
  0 <= a < 2 ^ 8 -> 0 <= b < 2 ^ 8 -> 0 <= Z.lxor a b < 2 ^ 8.
Proof.
  intros Ha Hb.
  assert (Hnn : 0 <= Z.lxor a b) by (apply Z.lxor_nonneg; lia).
  split; [exact Hnn|].
  destruct (Z.eq_dec (Z.lxor a b) 0) as [->|Hne]; [reflexivity|].
  apply Z.log2_lt_pow2; [lia|].
  pose proof (Z.log2_lxor a b (proj1 Ha) (proj1 Hb)).
  pose proof (log2_byte a Ha). pose proof (log2_byte b Hb). lia.
Qed.

Lemma xor_byte_twice (b k : byte) : byte.xor (byte.xor b k) k = b.
Proof.
  apply byte.unsigned_inj. unfold byte.xor.
  pose proof (byte.unsigned_range b). pose proof (byte.unsigned_range k).
  rewrite (unsigned_of_Z_small (Z.lxor (byte.unsigned b) (byte.unsigned k)))
    by (apply lxor_byte_range; assumption).
  rewrite Z.lxor_assoc, Z.lxor_nilpotent, Z.lxor_0_r.
  apply unsigned_of_Z_small. assumption.
Qed.

Lemma xor_cyclic_twice (key : list byte) (data : list byte) :
  forall i, mask.xor_cyclic key i (mask.xor_cyclic key i data) = data.
Proof.
  induction data as [|b rest IH]; intros i; cbn [mask.xor_cyclic].
  - reflexivity.
  - rewrite xor_byte_twice, IH. reflexivity.
Qed.

Lemma length_xor_cyclic (key : list byte) (data : list byte) :
  forall i, List.length (mask.xor_cyclic key i data) = List.length data.
Proof.
  induction data as [|b rest IH]; intros i; cbn [mask.xor_cyclic List.length].
  - reflexivity.
  - rewrite IH. reflexivity.
Qed.

Lemma len_xor_cyclic (key : list byte) (data : list byte) (i : nat) :
  len (mask.xor_cyclic key i data) = len data.
Proof. unfold len. rewrite length_xor_cyclic. reflexivity. Qed.

Lemma len_key_bytes (key : mask.mask_key) : len (mask.key_bytes key) = 4.
Proof. destruct key as [[[? ?] ?] ?]. reflexivity. Qed.

Lemma nth_xor_cyclic (key : list byte) (data : list byte) :
  forall i j d, (j < List.length data)%nat ->
    nth j (mask.xor_cyclic key i data) d =
    byte.xor (nth j data d) (nth ((i + j) mod 4)%nat key Byte.x00).
Proof.
  induction data as [|b rest IH]; intros i j d Hj; cbn [List.length] in Hj.
  - lia.
  - destruct j as [|j]; cbn [mask.xor_cyclic nth].
    + rewrite Nat.add_0_r. reflexivity.
    + rewrite IH by lia. do 3 f_equal. lia.
Qed.

Lemma slice_app_end {A} (a b : Z) (l1 l2 : list A) :
  a = len l1 -> b = a + len l2 -> slice a b (l1 ++ l2) = l2.
Proof.
  intros Ha Hb. rewrite <- (List.app_nil_r l2) at 1. apply slice_app_mid'; assumption.
Qed.

Lemma len_two {A} (a b : A) : len [a; b] = 2.
Proof. reflexivity. Qed.

(** ** Round trips

    The round trip for every payload length that fits the 64-bit field. *)
Lemma decode_encoded (opcode : Z) (payload : list byte) (fin : bool) :
  0 <= opcode <= 15 -> len payload < 2 ^ 64 ->
  exists h,
    encode_hybi_header opcode (len payload) false fin = Ret h /\
    len h = header_bytes (len payload) /\
    decode_hybi (h ++ payload) =
      Ret (Some (opcode, payload, len payload + header_bytes (len payload), fin)).
Proof.
  intros Hop HL. pose proof (len_nonneg payload) as Hnn.
  eexists. split; [apply encode_hybi_header_ok; lia|].
  split.
  { rewrite len_app, len_ext_of, len_two. lia. }
  rewrite <- List.app_assoc.
  rewrite decode_hybi_eq.
  rewrite encoded_opcode, encoded_fin, encoded_mask, encoded_header_len,
    encoded_payload_len by lia.
  rewrite !len_app, len_ext_of, len_two, Z.add_0_r.
  destruct (Z.ltb_spec (2 + (header_bytes (len payload) - 2 + len payload)) 2);
    [unfold header_bytes in *; 
     destruct (len payload <=? 125), (len payload <=? 65535); lia|].
  assert (Hhb : 2 <= header_bytes (len payload))
    by (unfold header_bytes; destruct (len payload <=? 125), (len payload <=? 65535); lia).
  repeat (case_ltb; try lia).
  rewrite List.app_assoc, slice_app_end, (Z.add_comm (len payload)).
  - reflexivity.
  - rewrite len_app, len_ext_of, len_two. lia.
  - reflexivity.
Qed.

Lemma decode_encoded_masked (opcode : Z) (payload : list byte) (key : mask.mask_key)
      (fin : bool) :
  0 <= opcode <= 15 -> len payload < 2 ^ 64 ->
  exists h,
    encode_hybi_header opcode (len payload) true fin = Ret h /\
    len h = header_bytes (len payload) /\
    decode_hybi (h ++ mask.key_bytes key
                   ++ mask.xor_cyclic (mask.key_bytes key) 0 payload) =
      Ret (Some (opcode, payload, len h + 4 + len payload, fin)).
Proof.
  intros Hop HL. pose proof (len_nonneg payload) as Hnn.
  eexists. split; [apply encode_hybi_header_ok; lia|].
  split.
  { rewrite len_app, len_ext_of, len_two. lia. }
  set (masked := mask.xor_cyclic (mask.key_bytes key) 0 payload).
  assert (Hlm : len masked = len payload) by apply len_xor_cyclic.
  assert (Hlk : len (mask.key_bytes key) = 4) by apply len_key_bytes.
  rewrite <- List.app_assoc.
  rewrite decode_hybi_eq.
  rewrite encoded_opcode, encoded_fin, encoded_mask, encoded_header_len,
    encoded_payload_len by lia.
  rewrite !len_app, len_ext_of, len_two, Hlm, Hlk.
  assert (Hhb : 2 <= header_bytes (len payload))
    by (unfold header_bytes; destruct (len payload <=? 125), (len payload <=? 65535); lia).
  repeat (case_ltb; try lia).
  unfold mask.hybi_unmask.
  rewrite (List.app_assoc _ (ext_of (len payload))).
  rewrite (slice_app_mid' _ _ _ (mask.key_bytes key))
    by (rewrite ?len_app, ?len_ext_of, ?len_two, ?Hlk; lia).
  rewrite (List.app_assoc _ (mask.key_bytes key)).
  rewrite (slice_app_end _ _ _ masked)
    by (rewrite ?len_app, ?len_ext_of, ?len_two, ?Hlk, ?Hlm; lia).
  unfold masked. rewrite xor_cyclic_twice.
  do 3 f_equal. f_equal. lia.
Qed.

(** ** Prefixes of a frame *)

Lemma len_firstn (n : nat) (buf : list byte) :
  (n <= List.length buf)%nat -> len (firstn n buf) = Z.of_nat n.
Proof. intros Hn. unfold len. rewrite List.length_firstn. lia. Qed.

Lemma nth_firstn_lt (i n : nat) (buf : list byte) :
  (i < n)%nat -> nth i (firstn n buf) Byte.x00 = nth i buf Byte.x00.
Proof.
  intros Hi. rewrite Stdlib.Lists.List.nth_firstn.
  destruct (Nat.ltb_spec i n); [reflexivity | lia].
Qed.

Lemma declared_header_len_firstn (n : nat) (buf : list byte) :
  (2 <= n)%nat -> declared_header_len (firstn n buf) = declared_header_len buf.
Proof.
  intros Hn. unfold declared_header_len, declares_mask, length_code.
  rewrite nth_firstn_lt by lia. reflexivity.
Qed.

Lemma declared_header_len_cases (buf : list byte) :
  (length_code buf = 126 /\ 4 <= declared_header_len buf) \/
  (length_code buf = 127 /\ 10 <= declared_header_len buf) \/
  (length_code buf <> 126 /\ length_code buf <> 127 /\ 2 <= declared_header_len buf).
Proof.
  unfold declared_header_len.
  destruct (Z.eqb_spec (length_code buf) 126) as [->|];
    [| destruct (Z.eqb_spec (length_code buf) 127) as [->|]];
    destruct (declares_mask buf); cbn [Z.eqb Pos.eqb]; lia.
Qed.

Lemma declared_payload_len_firstn (n : nat) (buf : list byte) :
  (2 <= n)%nat -> declared_header_len buf <= Z.of_nat n ->
  declared_payload_len (firstn n buf) = declared_payload_len buf.
Proof.
  intros Hn Hh. unfold declared_payload_len, length_code.
  rewrite nth_firstn_lt by lia. fold (length_code buf).
  destruct (declared_header_len_cases buf) as [[Hc ?]|[[Hc ?]|(Hc & Hc' & ?)]].
  - rewrite Hc. cbn [Z.eqb Pos.eqb]. rewrite slice_firstn by lia. reflexivity.
  - rewrite Hc. cbn [Z.eqb Pos.eqb]. rewrite slice_firstn by lia. reflexivity.
  - destruct (Z.eqb_spec (length_code buf) 126); [contradiction|].
    destruct (Z.eqb_spec (length_code buf) 127); [contradiction|]. reflexivity.
Qed.

Lemma decode_hybi_returns (buf : list byte) : exists r, decode_hybi buf = Ret r.
Proof.
  rewrite decode_hybi_eq.
  repeat case_ltb; eexists; reflexivity.
Qed.

Lemma decode_hybi_short (buf : list byte) :
  len buf < 2 \/ len buf < declared_header_len buf
  \/ len buf < declared_header_len buf + declared_payload_len buf ->
  decode_hybi buf = Ret None.
Proof.
  intros H. rewrite decode_hybi_eq.
  repeat (case_ltb; try reflexivity).
  lia.
Qed.

Lemma well_formed_frame_len (frame : list byte) :
  well_formed_frame frame ->
  2 <= len frame /\
  len frame = declared_header_len frame + declared_payload_len frame.
Proof.
  intros (opcode & payload & fin & H). rewrite decode_hybi_eq in H.
  repeat match type of H with
         | context [if ?a <? ?b then _ else _] =>
             destruct (Z.ltb_spec a b); try discriminate H
         end.
  injection H as _ _ Hl _. lia.
Qed.

Lemma decode_hybi_prefix (frame : list byte) (n : nat) :
  well_formed_frame frame -> (n < List.length frame)%nat ->
  decode_hybi (firstn n frame) = Ret None.
Proof.
  intros Hwf Hn. apply well_formed_frame_len in Hwf as [H2 Hlen].
  apply decode_hybi_short. rewrite len_firstn by lia.
  destruct (Z.ltb_spec (Z.of_nat n) 2); [left; assumption|].
  right. rewrite declared_header_len_firstn by lia.
  destruct (Z.ltb_spec (Z.of_nat n) (declared_header_len frame)); [left; assumption|].
  right. rewrite declared_payload_len_firstn by lia.
  unfold len in Hlen. lia.
Qed.

(** C2.  For every buffer, [decode_hybi] returns: it never raises.  It
    returns the incomplete result [None] when the buffer holds fewer than 2
    bytes, or fewer bytes than its mask flag and length class call for, or
    fewer bytes than the header and the declared payload length together;
    and every strict prefix of a well-formed frame decodes to [None]. *)
Theorem decode_hybi_incomplete (buf : list byte) :
  (exists r, decode_hybi buf = Ret r) /\
  (len buf < 2 -> decode_hybi buf = Ret None) /\
  (len buf < declared_header_len buf -> decode_hybi buf = Ret None) /\
  (len buf < declared_header_len buf + declared_payload_len buf ->
   decode_hybi buf = Ret None) /\
  (well_formed_frame buf ->
   forall n, (n < List.length buf)%nat -> decode_hybi (firstn n buf) = Ret None).
Proof.
  split; [apply decode_hybi_returns|].
  repeat split; intros H; try (apply decode_hybi_short; tauto).
  intros n Hn. apply decode_hybi_prefix; assumption.
Qed.

(** C2 at a one-byte buffer and at a prefix of [text_frame]. *)
Lemma decode_hybi_incomplete_witness :
  decode_hybi [Byte.x81] = Ret None /\
  decode_hybi (firstn 3 text_frame) = Ret None.
Proof.
  split.
  - apply (proj1 (proj2 (decode_hybi_incomplete [Byte.x81]))). reflexivity.
  - apply (proj2 (proj2 (proj2 (proj2 (decode_hybi_incomplete text_frame))))).
    + exists 1, [Byte.x68; Byte.x69], true. reflexivity.
    + cbn. lia.
Defined.


Lemma encoded_frame_well_formed (opcode : Z) (payload : list byte)
      (key : option mask.mask_key) (fin : bool) :
  0 <= opcode <= 15 -> len payload < 2 ^ 64 ->
  exists frame,
    encode_frame opcode payload key fin = Ret frame /\ well_formed_frame frame.
Proof.
  intros Hop HL. unfold encode_frame. destruct key as [k|].
  - destruct (decode_encoded_masked opcode payload k fin Hop HL) as (h & Hh & Hlen & Hd).
    rewrite Hh. cbn [pybind]. eexists. split; [reflexivity|].
    exists opcode, payload, fin. rewrite Hd. do 4 f_equal.
    rewrite !len_app, len_xor_cyclic, len_key_bytes. lia.
  - destruct (decode_encoded opcode payload fin Hop HL) as (h & Hh & Hlen & Hd).
    rewrite Hh. cbn [pybind]. eexists. split; [reflexivity|].
    exists opcode, payload, fin. rewrite Hd. do 4 f_equal.
    rewrite len_app. lia.
Qed.

(** C1.  For every opcode in 0..15, every fin flag and every payload whose
    length is one of 0, 1, 125, 126, 65535, 65536 and 200000, decoding the
    unmasked header followed by the payload gives back the opcode, the fin
    flag and the payload unchanged, and the length consumed is the payload
    length plus 2 header bytes up to 125, plus 4 from 126 to 65535, and
    plus 10 from 65536 on. *)
Theorem decode_encode_roundtrip (opcode : Z) (fin : bool) (payload : list byte) :
  0 <= opcode <= 15 ->
  In (len payload) [0; 1; 125; 126; 65535; 65536; 200000] ->
  exists h consumed,
    encode_hybi_header opcode (len payload) false fin = Ret h /\
    decode_hybi (h ++ payload) = Ret (Some (opcode, payload, consumed, fin)) /\
    (len payload <= 125 -> consumed = len payload + 2) /\
    (126 <= len payload <= 65535 -> consumed = len payload + 4) /\
    (65536 <= len payload -> consumed = len payload + 10).
Proof.
  intros Hop HL.
  assert (Hlt : len payload < 2 ^ 64).
  { cbn [In] in HL. change (2 ^ 64) with 18446744073709551616. lia. }
  destruct (decode_encoded opcode payload fin Hop Hlt) as (h & Hh & _ & Hd).
  exists h, (len payload + header_bytes (len payload)).
  split; [exact Hh|]. split; [exact Hd|].
  unfold header_bytes.
  destruct (Z.leb_spec (len payload) 125), (Z.leb_spec (len payload) 65535);
    repeat split; intros; lia.
Qed.

(** C1 at the binary opcode and a payload of one byte. *)
Lemma decode_encode_roundtrip_witness :
  exists h consumed,
    encode_hybi_header 2 (len [Byte.x68]) false true = Ret h /\
    decode_hybi (h ++ [Byte.x68]) = Ret (Some (2, [Byte.x68], consumed, true)) /\
    (len [Byte.x68] <= 125 -> consumed = len [Byte.x68] + 2) /\
    (126 <= len [Byte.x68] <= 65535 -> consumed = len [Byte.x68] + 4) /\
    (65536 <= len [Byte.x68] -> consumed = len [Byte.x68] + 10).
Proof.
  apply (decode_encode_roundtrip 2 true [Byte.x68]).
  - lia.
  - cbn. tauto.
Defined.

(** C3.  For every opcode, payload and 4-byte mask key, the frame encoded
    with masking is the header, then the 4 key bytes, then the payload with
    each byte XORed with the key byte at its position modulo 4; and decoding
    that frame gives back the original payload. *)
Theorem masked_frame_roundtrip (opcode : Z) (payload : list byte)
        (key : mask.mask_key) (fin : bool) :
  0 <= opcode <= 15 -> len payload < 2 ^ 64 ->
  exists h masked frame,
    encode_hybi_header opcode (len payload) true fin = Ret h /\
    encode_frame opcode payload (Some key) fin = Ret frame /\
    frame = h ++ mask.key_bytes key ++ masked /\
    len (mask.key_bytes key) = 4 /\
    List.length masked = List.length payload /\
    (forall i, (i < List.length payload)%nat ->
               nth i masked Byte.x00 =
               byte.xor (nth i payload Byte.x00)
                        (nth (i mod 4) (mask.key_bytes key) Byte.x00)) /\
    decode_hybi frame = Ret (Some (opcode, payload, len frame, fin)).
Proof.
  intros Hop HL.
  destruct (decode_encoded_masked opcode payload key fin Hop HL) as (h & Hh & Hlen & Hd).
  exists h, (mask.xor_cyclic (mask.key_bytes key) 0 payload).
  eexists. split; [exact Hh|].
  split; [unfold encode_frame; rewrite Hh; reflexivity|].
  split; [reflexivity|].
  split; [apply len_key_bytes|].
  split; [apply length_xor_cyclic|].
  split; [intros i Hi; rewrite nth_xor_cyclic by exact Hi; reflexivity|].
  rewrite Hd. do 4 f_equal.
  rewrite !len_app, len_xor_cyclic, len_key_bytes. lia.
Qed.

(** C3 at the payload "hi" and the key 01 02 03 04. *)
Lemma masked_frame_roundtrip_witness :
  exists h masked frame,
    encode_hybi_header 1 2 true true = Ret h /\
    encode_frame 1 [Byte.x68; Byte.x69]
                 (Some (Byte.x01, Byte.x02, Byte.x03, Byte.x04)) true = Ret frame /\
    frame = h ++ [Byte.x01; Byte.x02; Byte.x03; Byte.x04] ++ masked /\
    decode_hybi frame = Ret (Some (1, [Byte.x68; Byte.x69], len frame, true)).
Proof.
  destruct (masked_frame_roundtrip 1 [Byte.x68; Byte.x69]
              (Byte.x01, Byte.x02, Byte.x03, Byte.x04) true)
    as (h & masked & frame & Hh & Hf & Hshape & _ & _ & _ & Hd).
  - lia.
  - cbn. lia.
  - exists h, masked, frame. repeat split; assumption.
Defined.

(** ** The header encoder *)

Lemma lor_negative (a b : Z) : a < 0 -> Z.lor a b < 0.
Proof. intros Ha. apply Z.lor_neg. left. exact Ha. Qed.

Lemma encode_hybi_header_invalid_opcode (opcode payload_len : Z) (has_mask fin : bool) :
  Z.land opcode 0x0f <> opcode ->
  encode_hybi_header opcode payload_len has_mask fin = Raise ValueError.
Proof.
  intros H. unfold encode_hybi_header.
  destruct (Z.eqb_spec (Z.land opcode 15) opcode); [contradiction | reflexivity].
Qed.

Lemma encode_hybi_header_len (opcode payload_len : Z) (has_mask fin : bool) :
  Z.land opcode 0x0f = opcode -> 0 <= payload_len < 2 ^ 64 ->
  exists h, encode_hybi_header opcode payload_len has_mask fin = Ret h /\
            len h = header_bytes payload_len.
Proof.
  intros Hop HL. apply valid_opcode_iff in Hop.
  eexists. split; [apply encode_hybi_header_ok; assumption|].
  rewrite len_app, len_ext_of, len_two. lia.
Qed.

Lemma encode_hybi_header_out_of_range (opcode payload_len : Z) (has_mask fin : bool) :
  Z.land opcode 0x0f = opcode -> ~ 0 <= payload_len < 2 ^ 64 ->
  encode_hybi_header opcode payload_len has_mask fin = Raise StructError.
Proof.
  intros Hop HL. unfold encode_hybi_header.
  rewrite Hop, Z.eqb_refl. cbn [negb].
  apply valid_opcode_iff in Hop.
  assert (Hb1 : 0 <= Z.lor opcode (0x80 * Z.b2z fin) < 2 ^ (8 * Z.of_nat 1))
    by (apply (lor_flag_range 7); lia).
  unfold struct.pack_BB, struct.pack_BBH, struct.pack_BBQ.
  rewrite (pack_uint_ok 1 _ Hb1). cbn [pybind].
  destruct (Z.leb_spec payload_len 125).
  - rewrite pack_uint_out_of_range; [reflexivity|].
    assert (payload_len < 0) by lia.
    pose proof (lor_negative payload_len (0x80 * Z.b2z has_mask)). lia.
  - destruct (Z.ltb_spec payload_len 65536); [lia|].
    rewrite pack_uint_ok by (apply (lor_flag_range 7); lia). cbn [pybind].
    rewrite pack_uint_out_of_range; [reflexivity|]. 
    change (2 ^ (8 * Z.of_nat 8)) with (2 ^ 64). lia.
Qed.

(** C9.  [encode_hybi_header] raises [ValueError] exactly when the opcode
    has bits set outside its low 4 bits.  For every valid opcode and every
    length that a payload can have, from 0 to 2^64 - 1, it returns a header
    of exactly 2 bytes when the length is at most 125, of exactly 4 bytes
    from 126 to 65535 and of exactly 10 bytes from 65536 on, whatever the
    mask and fin flags. *)
Theorem encode_hybi_header_result (opcode payload_len : Z) (has_mask fin : bool) :
  0 <= payload_len < 2 ^ 64 ->
  (encode_hybi_header opcode payload_len has_mask fin = Raise ValueError
   <-> Z.land opcode 0x0f <> opcode) /\
  (Z.land opcode 0x0f = opcode ->
   exists h,
     encode_hybi_header opcode payload_len has_mask fin = Ret h /\
     (payload_len <= 125 -> len h = 2) /\
     (126 <= payload_len <= 65535 -> len h = 4) /\
     (65536 <= payload_len -> len h = 10)).
Proof.
  intros HL. split.
  - split.
    + intros H Hop.
      destruct (encode_hybi_header_len opcode payload_len has_mask fin Hop HL)
        as (h & Hh & _).
      congruence.
    + apply encode_hybi_header_invalid_opcode.
  - intros Hop.
    destruct (encode_hybi_header_len opcode payload_len has_mask fin Hop HL)
      as (h & Hh & Hlen).
    exists h. split; [exact Hh|]. unfold header_bytes in Hlen.
    destruct (Z.leb_spec payload_len 125), (Z.leb_spec payload_len 65535);
      repeat split; intros; lia.
Qed.

(** C9 at opcode 2, for a payload length of each class and either value
    of the flags. *)
Lemma encode_hybi_header_result_witness :
  (exists h, encode_hybi_header 2 125 true true = Ret h /\ len h = 2) /\
  (exists h, encode_hybi_header 2 65535 false true = Ret h /\ len h = 4) /\
  (exists h, encode_hybi_header 2 65536 true false = Ret h /\ len h = 10).
Proof.
  assert (H125 : 0 <= 125 < 2 ^ 64) by (cbn; lia).
  assert (H65535 : 0 <= 65535 < 2 ^ 64) by (cbn; lia).
  assert (H65536 : 0 <= 65536 < 2 ^ 64) by (cbn; lia).
  split; [|split].
  - destruct (proj2 (encode_hybi_header_result 2 125 true true H125) eq_refl)
      as (h & Hh & Hshort & _).
    exists h. split; [exact Hh | apply Hshort; lia].
  - destruct (proj2 (encode_hybi_header_result 2 65535 false true H65535) eq_refl)
      as (h & Hh & _ & Hmid & _).
    exists h. split; [exact Hh | apply Hmid; lia].
  - destruct (proj2 (encode_hybi_header_result 2 65536 true false H65536) eq_refl)
      as (h & Hh & _ & _ & Hlong).
    exists h. split; [exact Hh | apply Hlong; lia].
Defined.

(** ** The callee and the caller *)

Section Worlds.

Context {O : Type}.

Lemma calls_after_calls (l : list event) (w : world O) :
  calls (glob (after_calls l w)) = calls (glob w) ++ l.
Proof.
  revert w. induction l as [|e l IH]; intros w; cbn [after_calls fold_left].
  - symmetry. apply List.app_nil_r.
  - fold (after_calls l (on_glob (add_call e) w)). rewrite IH.
    cbn [on_glob glob add_call calls]. rewrite <- List.app_assoc. reflexivity.
Qed.

Lemma self_after_calls (l : list event) (w : world O) :
  self (after_calls l w) = self w.
Proof.
  revert w. induction l as [|e l IH]; intros w; cbn [after_calls fold_left].
  - reflexivity.
  - fold (after_calls l (on_glob (add_call e) w)). rewrite IH. reflexivity.
Qed.

Lemma counter_after_calls (l : list event) (w : world O) :
  _counter (glob (after_calls l w)) = _counter (glob w).
Proof.
  revert w. induction l as [|e l IH]; intros w; cbn [after_calls fold_left].
  - reflexivity.
  - fold (after_calls l (on_glob (add_call e) w)). rewrite IH. reflexivity.
Qed.

Lemma handler_after_calls (l : list event) (w : world O) :
  os_signal_handler (glob (after_calls l w)) = os_signal_handler (glob w).
Proof.
  revert w. induction l as [|e l IH]; intros w; cbn [after_calls fold_left].
  - reflexivity.
  - fold (after_calls l (on_glob (add_call e) w)). rewrite IH. reflexivity.
Qed.

Variable cfg : settings.

Lemma INJECT_FAULT_disabled (p : option Protocol) (w : world O) :
  FAULT_RATE cfg <= 0 -> INJECT_FAULT cfg p w = (Ret tt, w).
Proof.
  intros H. unfold INJECT_FAULT.
  destruct (Z.gtb_spec (FAULT_RATE cfg) 0); [lia | reflexivity].
Qed.

Lemma INJECT_FAULT_enabled (p : Protocol) (w : world O) :
  0 < FAULT_RATE cfg ->
  INJECT_FAULT cfg (Some p) w =
    (Ret tt, after_calls (fault_calls cfg p (_counter (glob w)))
               (on_glob (set_counter (_counter (glob w) + 1)) w)).
Proof.
  intros H. unfold INJECT_FAULT.
  destruct (Z.gtb_spec (FAULT_RATE cfg) 0); [|lia].
  unfold do_inject_fault, fault_calls, bind, modify, gets.
  cbn [on_glob glob set_counter _counter].
  destruct (_ =? 0); reflexivity.
Qed.

End Worlds.

(** ** The send queues *)

Lemma puts_in_order {A : Type} (xs : list A) :
  forall q, fold_left (fun q x => SimpleQueue.put x q) xs q = q ++ xs.
Proof.
  induction xs as [|x xs IH]; intros q; cbn [fold_left].
  - symmetry. apply List.app_nil_r.
  - rewrite IH. unfold SimpleQueue.put. rewrite <- List.app_assoc. reflexivity.
Qed.

(** C10.  [get_packet], of the callee and of the caller alike, never
    blocks and never raises: on an empty queue it returns
    [(None, False, False)] and leaves the queue as it is; otherwise it
    removes and returns the oldest packet, its second component is [False],
    and its third component is [True] exactly when packets remain.  The
    queue holds the packets in the order they were put, so the packet at
    its head is the oldest. *)
Theorem get_packet_nonblocking :
  (forall ps : list Packet,
      fold_left (fun q p => SimpleQueue.put p q) ps SimpleQueue.empty = ps) /\
  (forall w : SubprocessCallee.W,
      match SubprocessCallee.send_queue (self w) with
      | [] => SubprocessCallee.get_packet w = (Ret (None, false, false), w)
      | p :: rest =>
          exists more,
            SubprocessCallee.get_packet w =
              (Ret (Some p, false, more),
               on_self (SubprocessCallee.set_send_queue rest) w) /\
            (more = true <-> rest <> [])
      end) /\
  (forall w : SubprocessCaller.W,
      match SubprocessCaller.send_queue (self w) with
      | [] => SubprocessCaller.get_packet w = (Ret (None, false, false), w)
      | p :: rest =>
          exists more,
            SubprocessCaller.get_packet w =
              (Ret (Some p, false, more),
               on_self (SubprocessCaller.set_send_queue rest) w) /\
            (more = true <-> rest <> [])
      end).
Proof.
  split; [intros ps; apply puts_in_order|].
  split; intros w.
  - unfold SubprocessCallee.get_packet, bind, try_except, gets, lift, modify, ret.
    destruct (SubprocessCallee.send_queue (self w)) as [|p rest] eqn:Hq;
      cbn [SimpleQueue.get].
    + reflexivity.
    + eexists. split; [reflexivity|].
      cbn. destruct rest; cbn; split; intros; congruence.
  - unfold SubprocessCaller.get_packet, bind, try_except, gets, lift, modify, ret.
    destruct (SubprocessCaller.send_queue (self w)) as [|p rest] eqn:Hq;
      cbn [SimpleQueue.get].
    + reflexivity.
    + eexists. split; [reflexivity|].
      cbn. destruct rest; cbn; split; intros; congruence.
Qed.

Section Callee.

Import SubprocessCallee.

Variable cfg : settings.

(** What [send] does before the fault injection. *)
Lemma send_unfold (packet_type : string) (args : list PacketElement) (w : W) :
  send cfg packet_type args w =
    INJECT_FAULT cfg (protocol (self w))
      (after_calls
         (Log debug "send: adding '%s' message (%s items already in queue)"
            :: match protocol (self w) with
               | Some proto => [source_has_more proto]
               | None => []
               end)
         (on_self (fun o => set_send_queue
                              (SimpleQueue.put (sent_packet cfg packet_type args)
                                               (send_queue o)) o) w)).
Proof.
  unfold send, sent_packet, bind, emit, modify, gets, ret.
  cbn [on_self on_glob self glob set_send_queue protocol].
  destruct (protocol (self w)); reflexivity.
Qed.

Lemma send_started (packet_type : string) (args : list PacketElement) (w : W)
      (p : Protocol) :
  protocol (self w) = Some p -> 0 < FAULT_RATE cfg ->
  send cfg packet_type args w =
    (Ret tt,
     after_calls
       ([Log debug "send: adding '%s' message (%s items already in queue)";
         source_has_more p] ++ fault_calls cfg p (_counter (glob w)))
       (on_glob (set_counter (_counter (glob w) + 1))
          (on_self (fun o => set_send_queue
                               (SimpleQueue.put (sent_packet cfg packet_type args)
                                                (send_queue o)) o) w))).
Proof.
  intros Hp Hrate. rewrite send_unfold, Hp, INJECT_FAULT_enabled by assumption.
  unfold fault_calls. cbn [after_calls fold_left on_glob on_self glob self
                            add_call set_counter _counter calls os_signal_handler app].
  destruct (_ =? 0); reflexivity.
Qed.

Lemma send_no_fault (packet_type : string) (args : list PacketElement) (w : W) :
  FAULT_RATE cfg <= 0 ->
  send cfg packet_type args w =
    (Ret tt,
     after_calls
       (Log debug "send: adding '%s' message (%s items already in queue)"
          :: match protocol (self w) with
             | Some proto => [source_has_more proto]
             | None => []
             end)
       (on_self (fun o => set_send_queue
                            (SimpleQueue.put (sent_packet cfg packet_type args)
                                             (send_queue o)) o) w)).
Proof.
  intros Hrate. rewrite send_unfold. apply INJECT_FAULT_disabled. assumption.
Qed.

End Callee.

Section Signals.

Import SubprocessCallee.

Variable cfg : settings.

Lemma stop_unfold (w : W) :
  stop w =
    (Ret tt,
     after_calls
       ([Log debug "stop() protocol=%s"; cleanup_hook]
          ++ match protocol (self w) with
             | Some p => [protocol_close p]
             | None => []
             end
          ++ [Log debug "do_stop() stopping mainloop %s"; mainloop_quit])
       (on_self (set_protocol None) w)).
Proof.
  unfold stop, cleanup, do_stop, bind, emit, modify, gets, ret.
  destruct w as [g [n wl wo q [p|]]]; reflexivity.
Qed.

Lemma fault_calls_harmless (p : Protocol) (c : Z) :
  forallb (fun e => negb (runs_stop e || stops_or_closes e)) (fault_calls cfg p c) = true.
Proof. unfold fault_calls. destruct (_ =? 0); reflexivity. Qed.

Lemma send_returns (packet_type : string) (args : list PacketElement) (w : W) :
  protocol (self w) <> None \/ FAULT_RATE cfg <= 0 ->
  exists w' l,
    send cfg packet_type args w = (Ret tt, w') /\
    self w' = set_send_queue
                (SimpleQueue.put (sent_packet cfg packet_type args)
                                 (send_queue (self w))) (self w) /\
    calls (glob w') = calls (glob w) ++ l /\
    forallb (fun e => negb (runs_stop e || stops_or_closes e)) l = true /\
    os_signal_handler (glob w') = os_signal_handler (glob w).
Proof.
  intros Hp.
  destruct (Z_le_dec (FAULT_RATE cfg) 0) as [Hrate|Hrate].
  - eexists. eexists. split; [apply send_no_fault; assumption|].
    rewrite self_after_calls, calls_after_calls, handler_after_calls.
    repeat split. destruct (protocol (self w)); reflexivity.
  - destruct (protocol (self w)) as [p|] eqn:Hproto; [|destruct Hp; [congruence | lia]].
    eexists. eexists. split; [apply (send_started cfg _ _ _ p); [assumption | lia]|].
    rewrite self_after_calls, calls_after_calls, handler_after_calls.
    repeat split. rewrite forallb_app, fault_calls_harmless. reflexivity.
Qed.

(** Once [signal_stop] is the handler, a signal runs [stop] inline. *)
Lemma second_signal_stops (sig : Z) (w : W) :
  os_signal_handler (glob w) = Some bound_signal_stop ->
  exists w',
    deliver_signal cfg sig w = (Ret tt, w') /\
    calls (glob w') =
      calls (glob w)
        ++ [Log debug "signal_stop(%s) calling stop";
            Log debug "stop() protocol=%s"; cleanup_hook]
        ++ match protocol (self w) with
           | Some p => [protocol_close p]
           | None => []
           end
        ++ [Log debug "do_stop() stopping mainloop %s"; mainloop_quit] /\
    protocol (self w') = None.
Proof.
  intros Hh. eexists.
  unfold deliver_signal, bind, gets. rewrite Hh.
  unfold signal_stop, bind, emit, modify. rewrite stop_unfold.
  split; [reflexivity|]. split.
  - rewrite calls_after_calls. cbn [on_self on_glob glob self add_call calls].
    rewrite <- List.app_assoc. reflexivity.
  - rewrite self_after_calls. reflexivity.
Qed.

Lemma handle_signal_unfold (sig : Z) (w : W) :
  handle_signal cfg sig w =
    bind (send cfg "signal" [signame cfg sig])
         (fun _ => bind (emit (timeout_add 0 bound_cleanup))
                        (fun _ => emit (timeout_add 150 bound_stop)))
         (after_calls
            [register_os_signals bound_signal_stop;
             Log debug "handle_signal(%s) calling stop from main thread"]
            (on_glob (set_handler bound_signal_stop) w)).
Proof. reflexivity. Qed.

(** The two phases of the shutdown, where [send] returns.  When the
    first termination signal is delivered, while
    [handle_signal] is the registered handler, a packet tagged [signal] that
    names the signal is put on the send queue, [cleanup] is scheduled with a
    delay of 0 and [stop] with a delay between 100 and 200 ms, nothing of
    [stop] runs inline, and [signal_stop] becomes the handler; a termination
    signal delivered while [signal_stop] is the handler runs [stop] at once:
    cleanup, the close of the protocol, the end of the main loop.  The first
    part is stated for a callee whose protocol is set, or without fault
    injection. *)
Theorem handle_signal_two_phase (sig : Z) (w : W) :
  os_signal_handler (glob w) = Some bound_handle_signal ->
  protocol (self w) <> None \/ FAULT_RATE cfg <= 0 ->
  exists w1 l delay,
    deliver_signal cfg sig w = (Ret tt, w1) /\
    send_queue (self w1) =
      send_queue (self w) ++ [sent_packet cfg "signal" [signame cfg sig]] /\
    ptag (sent_packet cfg "signal" [signame cfg sig]) = "signal"%string /\
    (HEXLIFY_PACKETS cfg = false ->
     pargs (sent_packet cfg "signal" [signame cfg sig]) = [signame cfg sig]) /\
    calls (glob w1) =
      calls (glob w) ++ l
        ++ [timeout_add 0 bound_cleanup; timeout_add delay bound_stop] /\
    100 <= delay <= 200 /\
    forallb (fun e => negb (runs_stop e || stops_or_closes e)) l = true /\
    protocol (self w1) = protocol (self w) /\
    os_signal_handler (glob w1) = Some bound_signal_stop /\
    forall (sig' : Z) (w2 : W),
      os_signal_handler (glob w2) = Some bound_signal_stop ->
      exists w3,
        deliver_signal cfg sig' w2 = (Ret tt, w3) /\
        calls (glob w3) =
          calls (glob w2)
            ++ [Log debug "signal_stop(%s) calling stop";
                Log debug "stop() protocol=%s"; cleanup_hook]
            ++ match protocol (self w2) with
               | Some p => [protocol_close p]
               | None => []
               end
            ++ [Log debug "do_stop() stopping mainloop %s"; mainloop_quit] /\
        protocol (self w3) = None.
Proof.
  intros Hh Hp.
  unfold deliver_signal, bind at 1, gets. rewrite Hh.
  rewrite handle_signal_unfold.
  set (w0 := after_calls _ _).
  destruct (send_returns "signal" [signame cfg sig] w0)
    as (w' & l & Hsend & Hself & Hcalls & Hl & Hhandler).
  { subst w0. rewrite self_after_calls. exact Hp. }
  unfold bind, emit, modify. rewrite Hsend.
  eexists. exists ([register_os_signals bound_signal_stop;
                    Log debug "handle_signal(%s) calling stop from main thread"] ++ l).
  exists 150. split; [reflexivity|].
  cbn [on_glob on_self glob self add_call calls os_signal_handler].
  rewrite Hself, Hcalls, Hhandler. subst w0.
  rewrite self_after_calls, calls_after_calls, handler_after_calls.
  cbn [on_glob on_self glob self set_handler calls os_signal_handler
       set_send_queue send_queue protocol].
  repeat split.
  - intros Hhex. unfold sent_packet. rewrite Hhex. reflexivity.
  - rewrite <- !List.app_assoc. reflexivity.
  - lia.
  - lia.
  - exact Hl.
  - apply second_signal_stops.
Qed.

End Signals.

Section Dispatch.

Import SubprocessCallee.

Variable cfg : settings.
Variable proto : Protocol.

Lemma process_packet_control (packet : Packet) (w : W) :
  (ptag packet = CONNECTION_LOST ->
   process_packet cfg proto packet w =
     (Ret tt, after_calls [Log debug "connection-lost: %s, calling stop";
                           Log debug "net_stop() will call stop from main thread";
                           idle_add bound_stop []] w)) /\
  (ptag packet = GIBBERISH ->
   process_packet cfg proto packet w =
     match get_str packet 1 with
     | Ret _ =>
         (Ret tt, after_calls [Log warn "Warning: gibberish received:";
                               Log warn " %s"; Log warn " stopping";
                               Log debug "net_stop() will call stop from main thread";
                               idle_add bound_stop []] w)
     | Raise e => (Raise e, after_calls [Log warn "Warning: gibberish received:"] w)
     | Blocked => (Blocked, after_calls [Log warn "Warning: gibberish received:"] w)
     end) /\
  (ptag packet = "stop"%string ->
   process_packet cfg proto packet w =
     (Ret tt, after_calls [Log debug "received stop message";
                           Log debug "net_stop() will call stop from main thread";
                           idle_add bound_stop []] w)) /\
  (ptag packet = "exit"%string ->
   process_packet cfg proto packet w =
     (Raise (SystemExit 0), after_calls [Log debug "received exit message"] w)).
Proof.
  destruct packet as [tag args]. cbn [ptag].
  repeat split; intros ->;
    unfold process_packet, net_stop, bind, lift, emit, modify, raise;
    cbn [get_str ptag pargs]; cbn [String.eqb Ascii.eqb Bool.eqb CONNECTION_LOST GIBBERISH];
    reflexivity.
Qed.

Lemma tag_eqb_false (tag reserved : string) :
  tag <> reserved -> (tag =? reserved)%string = false.
Proof. apply String.eqb_neq. Qed.

(** With a protocol at hand, [INJECT_FAULT] returns. *)
Lemma INJECT_FAULT_started (w : W) :
  exists w',
    INJECT_FAULT cfg (Some proto) w = (Ret tt, w') /\
    self w' = self w /\
    calls (glob w') =
      calls (glob w) ++ (if FAULT_RATE cfg >? 0
                         then fault_calls cfg proto (_counter (glob w))
                         else []).
Proof.
  destruct (Z.gtb_spec (FAULT_RATE cfg) 0).
  - eexists. split; [apply INJECT_FAULT_enabled; assumption|].
    rewrite self_after_calls, calls_after_calls. split; reflexivity.
  - eexists. split; [apply INJECT_FAULT_disabled; assumption|].
    rewrite List.app_nil_r. split; reflexivity.
Qed.

Lemma whitelisted_true (whitelist : option (list string)) (attr : string) :
  (forall wl, whitelist = Some wl -> str_in attr wl = true) ->
  whitelisted whitelist attr = true.
Proof.
  intros H. destruct whitelist as [wl|]; [apply H|]; reflexivity.
Qed.

(** What [process_packet] does with a tag that none of its guards
    catches. *)
Lemma process_packet_forward (packet : Packet) (w : W) :
  ~ In (ptag packet) reserved_tags ->
  process_packet cfg proto packet w =
    if negb (whitelisted (method_whitelist (self w))
                         (replace "-" "_" (ptag packet)))
    then (Ret tt, after_calls
                    [Log warn "invalid command %r, not in whitelist: %s"] w)
    else
      match wrapped_object (self w) with
      | None =>
          (Ret tt,
           after_calls
             [Log debug "wrapped object is no more, ignoring method call '%s'"] w)
      | Some obj =>
          match obj (replace "-" "_" (ptag packet)) with
          | None =>
              (Ret tt, after_calls [getattr_wrapped (replace "-" "_" (ptag packet));
                                    Log warn "unknown command: '%s'";
                                    Log warn " packet: '%s'"] w)
          | Some method =>
              INJECT_FAULT cfg (Some proto)
                (after_calls
                   ([getattr_wrapped (replace "-" "_" (ptag packet))]
                      ++ (if DEBUG_WRAPPER cfg
                          then [Log debug "calling %s.%s%s"] else [])
                      ++ [idle_add
                            (wrapped_method (replace "-" "_" (ptag packet)) method)
                            (pargs packet)]) w)
          end
      end.
Proof.
  intros Htag. destruct packet as [tag args]. cbn [ptag pargs] in *.
  assert (Hne : (tag =? CONNECTION_LOST)%string = false /\
                (tag =? GIBBERISH)%string = false /\
                (tag =? "stop")%string = false /\
                (tag =? "exit")%string = false).
  { repeat split; apply tag_eqb_false; intros ->; apply Htag; cbn; tauto. }
  destruct Hne as (H1 & H2 & H3 & H4).
  unfold process_packet, whitelisted, bind, lift, gets, emit, modify, ret.
  cbn [get_str ptag pargs]. rewrite H1, H2, H3, H4.
  destruct (method_whitelist (self w)) as [wl|];
    [destruct (str_in (replace "-" "_" tag) wl)|];
    cbn [negb]; try reflexivity;
    (destruct (wrapped_object (self w)) as [obj|]; [|reflexivity]);
    (destruct (obj (replace "-" "_" tag)) as [method|]; [|reflexivity]);
    destruct (DEBUG_WRAPPER cfg); reflexivity.
Qed.

(** The four tags that [process_packet] has a guard for. *)
Lemma process_packet_unguarded (packet : Packet) (w : W) :
  ~ In (ptag packet) ["stop"; "exit"; CONNECTION_LOST; GIBBERISH]%string ->
  process_packet cfg proto packet w =
    if negb (whitelisted (method_whitelist (self w))
                         (replace "-" "_" (ptag packet)))
    then (Ret tt, after_calls
                    [Log warn "invalid command %r, not in whitelist: %s"] w)
    else
      match wrapped_object (self w) with
      | None =>
          (Ret tt,
           after_calls
             [Log debug "wrapped object is no more, ignoring method call '%s'"] w)
      | Some obj =>
          match obj (replace "-" "_" (ptag packet)) with
          | None =>
              (Ret tt, after_calls [getattr_wrapped (replace "-" "_" (ptag packet));
                                    Log warn "unknown command: '%s'";
                                    Log warn " packet: '%s'"] w)
          | Some method =>
              INJECT_FAULT cfg (Some proto)
                (after_calls
                   ([getattr_wrapped (replace "-" "_" (ptag packet))]
                      ++ (if DEBUG_WRAPPER cfg
                          then [Log debug "calling %s.%s%s"] else [])
                      ++ [idle_add
                            (wrapped_method (replace "-" "_" (ptag packet)) method)
                            (pargs packet)]) w)
          end
      end.
Proof.
  intros Htag. destruct packet as [tag args]. cbn [ptag pargs] in *.
  assert (Hne : (tag =? CONNECTION_LOST)%string = false /\
                (tag =? GIBBERISH)%string = false /\
                (tag =? "stop")%string = false /\
                (tag =? "exit")%string = false).
  { repeat split; apply tag_eqb_false; intros ->; apply Htag; cbn; tauto. }
  destruct Hne as (H1 & H2 & H3 & H4).
  unfold process_packet, whitelisted, bind, lift, gets, emit, modify, ret.
  cbn [get_str ptag pargs]. rewrite H1, H2, H3, H4.
  destruct (method_whitelist (self w)) as [wl|];
    [destruct (str_in (replace "-" "_" tag) wl)|];
    cbn [negb]; try reflexivity;
    (destruct (wrapped_object (self w)) as [obj|]; [|reflexivity]);
    (destruct (obj (replace "-" "_" tag)) as [method|]; [|reflexivity]);
    destruct (DEBUG_WRAPPER cfg); reflexivity.
Qed.

(** C4, amended.  For a packet whose tag is [stop], [exit],
    [connection-lost] or [gibberish], [process_packet] never looks up nor
    schedules a method of the wrapped object and leaves the callee as it is:
    [stop] and [connection-lost] schedule [stop], and [exit] raises
    [SystemExit(0)]; [gibberish] schedules [stop] when [get_str(1)] returns
    the message of the packet, and ends with the error of [get_str(1)],
    after one warning and with nothing scheduled, when it raises, as it does
    with [IndexError] for a packet of the tag alone.  No guard catches the
    tag [signal]: for every packet of that tag, when the whitelist allows
    [signal] and the wrapped object has a method of that name,
    [process_packet] looks the method up and schedules it with the data of
    the packet. *)
Theorem reserved_tags_not_forwarded (packet : Packet) (w : W) :
  (In (ptag packet) ["stop"; "exit"; CONNECTION_LOST; GIBBERISH]%string ->
   exists r w' l,
     process_packet cfg proto packet w = (r, w') /\
     self w' = self w /\
     calls (glob w') = calls (glob w) ++ l /\
     forallb (fun e => negb (touches_wrapped e)) l = true /\
     (ptag packet = "exit"%string -> r = Raise (SystemExit 0)) /\
     (ptag packet = "stop"%string \/ ptag packet = CONNECTION_LOST ->
      r = Ret tt /\ In (idle_add bound_stop []) l) /\
     (ptag packet = GIBBERISH ->
      (forall message, get_str packet 1 = Ret message ->
                       r = Ret tt /\ In (idle_add bound_stop []) l) /\
      (forall e, get_str packet 1 = Raise e ->
                 r = Raise e /\ l = [Log warn "Warning: gibberish received:"]) /\
      (pargs packet = [] -> r = Raise IndexError))) /\
  (ptag packet = "signal"%string ->
   forall obj method,
     whitelisted (method_whitelist (self w)) "signal" = true ->
     wrapped_object (self w) = Some obj ->
     obj "signal"%string = Some method ->
     exists w' l,
       process_packet cfg proto packet w = (Ret tt, w') /\
       self w' = self w /\
       calls (glob w') = calls (glob w) ++ l /\
       In (getattr_wrapped "signal") l /\
       In (idle_add (wrapped_method "signal" method) (pargs packet)) l).
Proof.
  split.
  - intros Htag.
    destruct (process_packet_control packet w) as (Hlost & Hgib & Hstop & Hexit).
    cbn [In] in Htag. destruct Htag as [H|[H|[H|[H|[]]]]]; symmetry in H.
    + do 3 eexists. split; [apply Hstop, H|].
      rewrite self_after_calls, calls_after_calls, H.
      do 3 (split; [reflexivity|]). unfold CONNECTION_LOST, GIBBERISH.
      split; [discriminate|]. split; [|discriminate].
      intros _. split; [reflexivity | cbn; tauto].
    + do 3 eexists. split; [apply Hexit, H|].
      rewrite self_after_calls, calls_after_calls, H.
      do 3 (split; [reflexivity|]). unfold CONNECTION_LOST, GIBBERISH.
      split; [reflexivity|]. split; [|discriminate].
      intros [?|?]; discriminate.
    + do 3 eexists. split; [apply Hlost, H|].
      rewrite self_after_calls, calls_after_calls, H.
      do 3 (split; [reflexivity|]). unfold CONNECTION_LOST, GIBBERISH.
      split; [discriminate|]. split; [|discriminate].
      intros _. split; [reflexivity | cbn; tauto].
    + specialize (Hgib H).
      assert (Hbare : pargs packet = [] -> get_str packet 1 = Raise IndexError).
      { intros Hnil. unfold get_str. rewrite Hnil. reflexivity. }
      destruct (get_str packet 1) as [s|e|] eqn:Hget;
        do 3 eexists; (split; [exact Hgib|]);
        rewrite self_after_calls, calls_after_calls, H;
        do 3 (split; [reflexivity|]); unfold CONNECTION_LOST, GIBBERISH;
        (split; [discriminate|]); (split; [intros [?|?]; discriminate|]);
        intros _.
      * split; [intros m _; split; [reflexivity | cbn; tauto]|].
        split; [intros e He; discriminate|].
        intros Hnil. specialize (Hbare Hnil). discriminate.
      * split; [intros m Hm; discriminate|].
        split; [intros e' He'; injection He' as <-; split; reflexivity|].
        intros Hnil. specialize (Hbare Hnil). injection Hbare as ->. reflexivity.
      * split; [intros m Hm; discriminate|].
        split; [intros e He; discriminate|].
        intros Hnil. specialize (Hbare Hnil). discriminate.
  - intros Htag obj method Hallowed Hwo Hattr.
    rewrite process_packet_unguarded
      by (rewrite Htag; unfold CONNECTION_LOST, GIBBERISH; cbn [In];
          intros [?|[?|[?|[?|[]]]]]; discriminate).
    rewrite Htag.
    change (replace "-" "_" "signal") with "signal"%string.
    rewrite Hallowed, Hwo, Hattr. cbn [negb].
    match goal with
    | |- context [INJECT_FAULT cfg (Some proto) ?w0] =>
        destruct (INJECT_FAULT_started w0) as (w' & Hw' & Hs & Hc)
    end.
    eexists. eexists. split; [exact Hw'|].
    rewrite Hs, Hc, self_after_calls, calls_after_calls.
    split; [reflexivity|].
    rewrite <- !List.app_assoc. split; [reflexivity|].
    split; [cbn [app In]; tauto|].
    apply List.in_or_app. right. cbn [app]. apply List.in_or_app. right.
    cbn [app In]. tauto.
Qed.

(** C5.  For a packet whose tag is not reserved, the hyphens of the tag
    are turned into underscores; when a whitelist is set and the translated
    tag is not in it, or there is no wrapped object, or it has no such
    method, the packet is logged and dropped: [process_packet] returns, and
    makes no other call.  Otherwise the method is handed to [GLib.idle_add]
    with the remaining elements of the packet, and is not called inline. *)
Theorem process_packet_dispatch (packet : Packet) (w : W) :
  ~ In (ptag packet) reserved_tags ->
  (forall wl,
      method_whitelist (self w) = Some wl ->
      str_in (replace "-" "_" (ptag packet)) wl = false ->
      process_packet cfg proto packet w =
        (Ret tt, after_calls [Log warn "invalid command %r, not in whitelist: %s"] w)) /\
  ((forall wl, method_whitelist (self w) = Some wl ->
               str_in (replace "-" "_" (ptag packet)) wl = true) ->
   (wrapped_object (self w) = None ->
    process_packet cfg proto packet w =
      (Ret tt,
       after_calls [Log debug "wrapped object is no more, ignoring method call '%s'"] w)) /\
   (forall obj,
       wrapped_object (self w) = Some obj ->
       obj (replace "-" "_" (ptag packet)) = None ->
       process_packet cfg proto packet w =
         (Ret tt,
          after_calls [getattr_wrapped (replace "-" "_" (ptag packet));
                       Log warn "unknown command: '%s'";
                       Log warn " packet: '%s'"] w)) /\
   (forall obj method,
       wrapped_object (self w) = Some obj ->
       obj (replace "-" "_" (ptag packet)) = Some method ->
       exists w',
         process_packet cfg proto packet w = (Ret tt, w') /\
         self w' = self w /\
         calls (glob w') =
           calls (glob w)
             ++ [getattr_wrapped (replace "-" "_" (ptag packet))]
             ++ (if DEBUG_WRAPPER cfg then [Log debug "calling %s.%s%s"] else [])
             ++ [idle_add (wrapped_method (replace "-" "_" (ptag packet)) method)
                          (pargs packet)]
             ++ (if FAULT_RATE cfg >? 0
                 then fault_calls cfg proto (_counter (glob w))
                 else []))).
Proof.
  intros Htag. rewrite (process_packet_forward packet w Htag).
  split; [|intros Hallowed; repeat split].
  - intros wl Hwl Hnot. unfold whitelisted. rewrite Hwl, Hnot. reflexivity.
  - intros Hwo. rewrite whitelisted_true, Hwo by exact Hallowed. reflexivity.
  - intros obj Hwo Hattr.
    rewrite whitelisted_true, Hwo, Hattr by exact Hallowed. reflexivity.
  - intros obj method Hwo Hattr.
    rewrite whitelisted_true, Hwo, Hattr by exact Hallowed. cbn [negb].
    match goal with
    | |- context [INJECT_FAULT cfg (Some proto) ?w0] =>
        destruct (INJECT_FAULT_started w0) as (w' & Hw' & Hs & Hc)
    end.
    exists w'. split; [exact Hw'|].
    rewrite Hs, Hc, self_after_calls, calls_after_calls, counter_after_calls.
    rewrite <- !List.app_assoc. split; reflexivity.
Qed.

End Dispatch.

Section Caller.

Import SubprocessCaller.

Variable cfg : settings.

Lemma INJECT_FAULT_outcome {O : Type} (p : option Protocol) (w : world O) :
  exists r w',
    INJECT_FAULT cfg p w = (r, w') /\
    (r = Ret tt \/ r = Raise AttributeError) /\
    self w' = self w.
Proof.
  unfold INJECT_FAULT. destruct (FAULT_RATE cfg >? 0).
  - unfold do_inject_fault, bind, modify, gets, emit, call_raw_write, raise, ret.
    cbn [on_glob glob self set_counter _counter].
    destruct (_ =? 0); [destruct p|]; do 2 eexists;
      (split; [reflexivity|]); split; auto.
  - do 2 eexists. split; [reflexivity|]. split; auto.
Qed.

Lemma caller_send_unfold (packet_type : string) (packet_data : list PacketElement)
      (w : W) :
  send cfg packet_type packet_data w =
    INJECT_FAULT cfg (protocol (self w))
      (after_calls
         match protocol (self w) with
         | Some proto =>
             source_has_more proto
               :: (if FLUSH cfg then
                     match _conn proto with
                     | Some conn => if is_active conn then [conn_flush proto] else []
                     | None => []
                     end
                   else [])
         | None => []
         end
         (on_self (fun o => set_send_queue
                              (SimpleQueue.put (mkPacket packet_type packet_data)
                                               (send_queue o)) o) w)).
Proof.
  unfold send, bind, emit, modify, gets, ret.
  cbn [on_self on_glob self glob set_send_queue protocol].
  destruct (protocol (self w)) as [[id [[[|]]|]]|]; destruct (FLUSH cfg); reflexivity.
Qed.

(** C7, amended.  [SubprocessCaller.send] always puts the packet on the
    send queue and never fails with [ConnectionClosedException], whatever
    the state of the subprocess.  The liveness check is [abort_test], which
    the connection calls: it raises [ConnectionClosedException] when there
    is no process or when the process has exited with a status other than
    0, and passes while the process runs. *)
Theorem caller_send_enqueues (packet_type : string) (packet_data : list PacketElement)
        (action : string) (w : W) :
  (exists r w',
      send cfg packet_type packet_data w = (r, w') /\
      r <> Raise ConnectionClosedException /\
      send_queue (self w') =
        send_queue (self w) ++ [mkPacket packet_type packet_data] /\
      process (self w') = process (self w)) /\
  (process (self w) = None ->
   abort_test action w = (Raise ConnectionClosedException, w)) /\
  (forall returncode,
      process (self w) = Some (mkPopen (Some returncode)) -> returncode <> 0 ->
      abort_test action w = (Raise ConnectionClosedException, w)) /\
  (process (self w) = Some (mkPopen None) -> abort_test action w = (Ret tt, w)).
Proof.
  split; [|repeat split].
  - rewrite caller_send_unfold.
    match goal with
    | |- context [INJECT_FAULT cfg ?p ?w0] =>
        destruct (INJECT_FAULT_outcome p w0) as (r & w' & Hrun & Hr & Hself)
    end.
    exists r, w'. split; [exact Hrun|].
    rewrite Hself, self_after_calls. cbn [on_self self set_send_queue send_queue process].
    split; [destruct Hr; subst r; discriminate|]. split; reflexivity.
  - intros Hp. unfold abort_test, bind, gets. rewrite Hp. reflexivity.
  - intros rc Hp Hrc. unfold abort_test, bind, gets. rewrite Hp. cbn [poll].
    unfold truthy. destruct (Z.eqb_spec rc 0); [contradiction | reflexivity].
  - intros Hp. unfold abort_test, bind, gets. rewrite Hp. reflexivity.
Qed.

End Caller.

(** C7 fails as stated: after the subprocess has exited with status 1,
    [send] enqueues the packet and returns; and [abort_test] passes when the
    exit status is 0. *)
Lemma send_after_exit_enqueues :
  SubprocessCaller.send default_settings "ping" [] (exited_caller 1) =
    (Ret tt,
     after_calls [source_has_more proto0]
       (on_self (SubprocessCaller.set_send_queue [mkPacket "ping" []])
                (exited_caller 1))) /\
  SubprocessCaller.abort_test "write" (exited_caller 0) = (Ret tt, exited_caller 0).
Proof. split; reflexivity. Qed.

(** C4 fails as stated: a packet tagged [signal] is looked up on the
    wrapped object, and the method found is scheduled. *)
Lemma signal_tag_is_forwarded :
  SubprocessCallee.process_packet default_settings proto0
    (mkPacket "signal" [EStr "SIGTERM"]) echo_callee =
    (Ret tt,
     after_calls [getattr_wrapped "signal";
                  idle_add (wrapped_method "signal" 2) [EStr "SIGTERM"]]
       echo_callee).
Proof. reflexivity. Qed.

Section FaultInjection.

Import SubprocessCallee.

Variable cfg : settings.





End FaultInjection.


(** ** The theorems at sample inputs *)

(** C4, amended, at a [stop] packet, at a [gibberish] packet of the
    tag alone, and at a [signal] packet. *)
Lemma reserved_tags_not_forwarded_witness :
  (exists l,
      calls (glob (snd (SubprocessCallee.process_packet default_settings proto0
                          (mkPacket "stop" []) echo_callee))) =
        calls (glob echo_callee) ++ l /\
      forallb (fun e => negb (touches_wrapped e)) l = true /\
      In (idle_add bound_stop []) l) /\
  fst (SubprocessCallee.process_packet default_settings proto0
         (mkPacket GIBBERISH []) echo_callee) = Raise IndexError /\
  (exists w' l,
      SubprocessCallee.process_packet default_settings proto0
        (mkPacket "signal" [EStr "SIGTERM"]) echo_callee = (Ret tt, w') /\
      calls (glob w') = calls (glob echo_callee) ++ l /\
      In (idle_add (wrapped_method "signal" 2) [EStr "SIGTERM"]) l).
Proof.
  split; [|split].
  - destruct (proj1 (reserved_tags_not_forwarded default_settings proto0
                       (mkPacket "stop" []) echo_callee))
      as (r & w' & l & Hrun & _ & Hcalls & Hl & _ & Hstop & _).
    + cbn. tauto.
    + exists l. rewrite Hrun. cbn [snd].
      split; [exact Hcalls|]. split; [exact Hl|].
      apply Hstop. left. reflexivity.
  - destruct (proj1 (reserved_tags_not_forwarded default_settings proto0
                       (mkPacket GIBBERISH []) echo_callee))
      as (r & w' & l & Hrun & _ & _ & _ & _ & _ & Hgib).
    + cbn. tauto.
    + rewrite Hrun. cbn [fst]. apply (Hgib eq_refl). reflexivity.
  - destruct (proj2 (reserved_tags_not_forwarded default_settings proto0
                       (mkPacket "signal" [EStr "SIGTERM"]) echo_callee)
                eq_refl echo_object 2%nat eq_refl eq_refl eq_refl)
      as (w' & l & Hrun & _ & Hcalls & _ & Hin).
    exists w', l. split; [exact Hrun|]. split; [exact Hcalls | exact Hin].
Defined.

(** C5 at an [echo] packet, and at a packet for a method that does not
    exist. *)
Lemma process_packet_dispatch_witness :
  (exists w',
      SubprocessCallee.process_packet default_settings proto0
        (mkPacket "echo" [EStr "hi"]) echo_callee = (Ret tt, w') /\
      calls (glob w') =
        calls (glob echo_callee)
          ++ [getattr_wrapped "echo";
              idle_add (wrapped_method "echo" 1) [EStr "hi"]]) /\
  SubprocessCallee.process_packet default_settings proto0
    (mkPacket "no-such-method" []) echo_callee =
    (Ret tt,
     after_calls [getattr_wrapped "no_such_method";
                  Log warn "unknown command: '%s'";
                  Log warn " packet: '%s'"] echo_callee).
Proof.
  split.
  - destruct (process_packet_dispatch default_settings proto0
                (mkPacket "echo" [EStr "hi"]) echo_callee) as (_ & Hallowed).
    + cbn. intuition discriminate.
    + destruct Hallowed as (_ & _ & Hfound).
      * intros wl Hwl. discriminate Hwl.
      * destruct (Hfound echo_object 1%nat eq_refl eq_refl) as (w' & Hrun & _ & Hcalls).
        exists w'. split; [exact Hrun | exact Hcalls].
  - destruct (process_packet_dispatch default_settings proto0
                (mkPacket "no-such-method" []) echo_callee) as (_ & Hallowed).
    + cbn. intuition discriminate.
    + destruct Hallowed as (_ & Hmissing & _).
      * intros wl Hwl. discriminate Hwl.
      * apply (Hmissing echo_object); reflexivity.
Defined.

(** The two phases at SIGTERM, for the started callee. *)
Lemma handle_signal_two_phase_witness :
  exists w1 l delay,
    SubprocessCallee.deliver_signal default_settings 15 echo_callee = (Ret tt, w1) /\
    SubprocessCallee.send_queue (self w1) = [mkPacket "signal" [EInt 15]] /\
    calls (glob w1) =
      calls (glob echo_callee) ++ l
        ++ [timeout_add 0 bound_cleanup; timeout_add delay bound_stop] /\
    100 <= delay <= 200 /\
    os_signal_handler (glob w1) = Some bound_signal_stop.
Proof.
  destruct (handle_signal_two_phase default_settings 15 echo_callee)
    as (w1 & l & delay & Hrun & Hq & _ & _ & Hcalls & Hdelay & _ & _ & Hh & _).
  - reflexivity.
  - left. discriminate.
  - exists w1, l, delay. repeat split; try assumption; apply Hdelay.
Defined.

(** C6 at the failing input: SIGTERM reaches a callee that was
    constructed and not started, with fault injection at rate 1.  The
    [signal] packet is queued and [signal_stop] installed, and then [send]
    ends in [INJECT_FAULT(None)], which raises [AttributeError]: neither
    [cleanup] nor [stop] is scheduled. *)
Lemma first_signal_before_start_fails :
  SubprocessCallee.deliver_signal fault_rate_1 15 new_callee =
    (Raise AttributeError,
     mkWorld
       (mkGlobals 1 (Some bound_signal_stop)
          (calls (glob new_callee)
             ++ [register_os_signals bound_signal_stop;
                 Log debug "handle_signal(%s) calling stop from main thread";
                 Log debug "send: adding '%s' message (%s items already in queue)";
                 Log warn "injecting fault in %s"]))
       (SubprocessCallee.set_send_queue [mkPacket "signal" [EInt 15]]
                                        (self new_callee))) /\
  filter is_timeout_add
    (calls (glob (snd (SubprocessCallee.deliver_signal fault_rate_1 15
                         new_callee)))) = [].
Proof. split; reflexivity. Qed.

(** C7, amended, at a caller whose subprocess was killed by signal 9. *)
Lemma caller_send_enqueues_witness :
  SubprocessCaller.abort_test "write" (exited_caller (-9)) =
    (Raise ConnectionClosedException, exited_caller (-9)).
Proof.
  apply (proj1 (proj2 (proj2
           (caller_send_enqueues default_settings "ping" [] "write" (exited_caller (-9)))))
           (-9)).
  - reflexivity.
  - lia.
Defined.


(** * Further properties *)

(** ** The frame codec on streams *)

Lemma slice_app_l {A} (a b : Z) (l1 l2 : list A) :
  (Z.to_nat b <= List.length l1)%nat -> slice a b (l1 ++ l2) = slice a b l1.
Proof.
  unfold slice. intros Hb.
  rewrite List.skipn_app, List.firstn_app.
  replace (Z.to_nat b - Z.to_nat a - List.length (skipn (Z.to_nat a) l1))%nat
    with 0%nat by (rewrite List.length_skipn; lia).
  cbn [firstn]. apply List.app_nil_r.
Qed.

Lemma nth_app_lt (i : nat) (l1 l2 : list byte) :
  (i < List.length l1)%nat -> nth i (l1 ++ l2) Byte.x00 = nth i l1 Byte.x00.
Proof. intros Hi. apply List.app_nth1. exact Hi. Qed.

Lemma declared_header_len_app (buf rest : list byte) :
  2 <= len buf -> declared_header_len (buf ++ rest) = declared_header_len buf.
Proof.
  unfold len. intros Hlen. unfold declared_header_len, declares_mask, length_code.
  rewrite nth_app_lt by lia. reflexivity.
Qed.

Lemma declared_payload_len_app (buf rest : list byte) :
  2 <= len buf -> declared_header_len buf <= len buf ->
  declared_payload_len (buf ++ rest) = declared_payload_len buf.
Proof.
  unfold len. intros Hlen Hh. unfold declared_payload_len, length_code.
  rewrite nth_app_lt by lia. fold (length_code buf).
  destruct (declared_header_len_cases buf) as [[Hc ?]|[[Hc ?]|(Hc & Hc' & ?)]].
  - rewrite Hc. cbn [Z.eqb Pos.eqb]. rewrite slice_app_l by lia. reflexivity.
  - rewrite Hc. cbn [Z.eqb Pos.eqb]. rewrite slice_app_l by lia. reflexivity.
  - destruct (Z.eqb_spec (length_code buf) 126); [contradiction|].
    destruct (Z.eqb_spec (length_code buf) 127); [contradiction|]. reflexivity.
Qed.

(** What a successful decode tells of the buffer. *)
Lemma decode_hybi_complete (buf : list byte) (r : decoded) :
  decode_hybi buf = Ret (Some r) ->
  2 <= len buf /\
  declared_header_len buf <= len buf /\
  declared_header_len buf + declared_payload_len buf <= len buf /\
  r = (Z.land (byte.unsigned (nth 0 buf Byte.x00)) 0x0f,
       (if declares_mask buf
        then mask.hybi_unmask buf (declared_header_len buf - 4)
                              (declared_payload_len buf)
        else slice (declared_header_len buf)
                   (declared_header_len buf + declared_payload_len buf) buf),
       declared_header_len buf + declared_payload_len buf,
       truthy (Z.land (byte.unsigned (nth 0 buf Byte.x00)) 0x80)).
Proof.
  intros H. rewrite decode_hybi_eq in H.
  repeat match type of H with
         | context [if ?a <? ?b then _ else _] =>
             destruct (Z.ltb_spec a b); try discriminate H
         end.
  injection H as <-. repeat split; assumption.
Qed.

Lemma decode_hybi_app (buf rest : list byte) (r : decoded) :
  decode_hybi buf = Ret (Some r) -> decode_hybi (buf ++ rest) = Ret (Some r).
Proof.
  intros H. apply decode_hybi_complete in H as (H2 & Hh & Hp & Hr).
  rewrite decode_hybi_eq.
  rewrite declared_header_len_app, declared_payload_len_app by assumption.
  pose proof (len_nonneg rest). rewrite len_app.
  repeat (case_ltb; try lia).
  rewrite Hr. unfold declares_mask, mask.hybi_unmask.
  unfold len in *. rewrite !nth_app_lt by lia.
  rewrite !slice_app_l by lia. reflexivity.
Qed.

(** X1.  A buffer that holds a whole frame decodes to the same result
    whatever follows it; and when the frame is the whole buffer, what is
    left after the consumed length is what followed. *)
Theorem decode_hybi_ignores_what_follows (buf rest : list byte) (opcode : Z)
        (payload : list byte) (consumed : Z) (fin : bool) :
  decode_hybi buf = Ret (Some (opcode, payload, consumed, fin)) ->
  decode_hybi (buf ++ rest) = Ret (Some (opcode, payload, consumed, fin)) /\
  (consumed = len buf ->
   slice consumed (len (buf ++ rest)) (buf ++ rest) = rest /\
   decode_hybi (slice consumed (len (buf ++ rest)) (buf ++ rest)) = decode_hybi rest).
Proof.
  intros H.
  split; [apply decode_hybi_app; exact H|].
  intros Hc.
  assert (Hs : slice consumed (len (buf ++ rest)) (buf ++ rest) = rest).
  { rewrite Hc. apply slice_app_end; [reflexivity | apply len_app]. }
  split; [exact Hs | rewrite Hs; reflexivity].
Qed.

(** X1 at [text_frame] followed by the start of a second frame. *)
Lemma decode_hybi_ignores_what_follows_witness :
  decode_hybi (text_frame ++ [Byte.x82; Byte.x7e]) =
    Ret (Some (1, [Byte.x68; Byte.x69], 4, true)).
Proof.
  apply (decode_hybi_ignores_what_follows text_frame [Byte.x82; Byte.x7e]).
  reflexivity.
Defined.

Lemma declared_payload_len_nonneg (buf : list byte) : 0 <= declared_payload_len buf.
Proof.
  unfold declared_payload_len, length_code, struct.be_combine.
  pose proof (byte.unsigned_range (nth 1 buf Byte.x00)).
  destruct (_ =? 126); [|destruct (_ =? 127)];
    try (apply le_combine_bound).
  apply Z.land_nonneg. right. lia.
Qed.

Lemma len_hybi_unmask (buf : list byte) (offset datalen : Z) :
  0 <= offset -> 0 <= datalen -> offset + 4 + datalen <= len buf ->
  len (mask.hybi_unmask buf offset datalen) = datalen.
Proof.
  intros Ho Hd Hlen. unfold mask.hybi_unmask.
  rewrite len_xor_cyclic. unfold len. rewrite length_slice by lia. lia.
Qed.

(** X2.  A successful decode makes progress and stays within the buffer:
    the opcode is from 0 to 15, the consumed length is at least the 2 to 14
    header bytes and at most the length of the buffer, and the payload
    has the consumed length less the header. *)
Theorem decode_hybi_bounds (buf : list byte) (opcode : Z) (payload : list byte)
        (consumed : Z) (fin : bool) :
  decode_hybi buf = Ret (Some (opcode, payload, consumed, fin)) ->
  0 <= opcode <= 15 /\
  2 <= declared_header_len buf <= 14 /\
  declared_header_len buf <= consumed <= len buf /\
  len payload = consumed - declared_header_len buf.
Proof.
  intros H. apply decode_hybi_complete in H as (H2 & Hh & Hp & Hr).
  injection Hr as -> -> -> ->.
  pose proof (declared_payload_len_nonneg buf) as Hnn.
  assert (Hhdr : 2 <= declared_header_len buf <= 14).
  { unfold declared_header_len.
    destruct (declares_mask buf), (length_code buf =? 126),
      (length_code buf =? 127); lia. }
  split.
  { replace (Z.land (byte.unsigned (nth 0 buf Byte.x00)) 15)
      with (byte.unsigned (nth 0 buf Byte.x00) mod 16)
      by (symmetry; apply (Z.land_ones _ 4); lia).
    pose proof (Z.mod_pos_bound (byte.unsigned (nth 0 buf Byte.x00)) 16). lia. }
  split; [exact Hhdr|]. split; [lia|].
  destruct (declares_mask buf) eqn:Hm.
  - rewrite len_hybi_unmask; try lia.
    unfold declared_header_len in *. rewrite Hm in *.
    destruct (length_code buf =? 126), (length_code buf =? 127); lia.
  - unfold len. rewrite length_slice by (unfold len in *; lia). lia.
Qed.

(** X2 at [text_frame]. *)
Lemma decode_hybi_bounds_witness :
  0 <= 1 <= 15 /\
  2 <= declared_header_len text_frame <= 14 /\
  declared_header_len text_frame <= 4 <= len text_frame /\
  len [Byte.x68; Byte.x69] = 4 - declared_header_len text_frame.
Proof.
  apply (decode_hybi_bounds text_frame 1 [Byte.x68; Byte.x69] 4 true).
  reflexivity.
Defined.

(** X3.  For every opcode from 0 to 15, either fin flag and every payload
    shorter than 2^64 bytes, the unmasked header is 2, 4 or 10 bytes long
    by the class of the payload length, and the header followed by the
    payload, and then by anything, decodes to the opcode, the payload and the
    fin flag, the consumed length being that of header and payload. *)
Theorem roundtrip_any_length (opcode : Z) (payload rest : list byte) (fin : bool) :
  0 <= opcode <= 15 -> len payload < 2 ^ 64 ->
  exists h,
    encode_hybi_header opcode (len payload) false fin = Ret h /\
    len h = header_bytes (len payload) /\
    decode_hybi (h ++ payload ++ rest) =
      Ret (Some (opcode, payload, len h + len payload, fin)).
Proof.
  intros Hop HL.
  destruct (decode_encoded opcode payload fin Hop HL) as (h & Hh & Hlen & Hd).
  exists h. split; [exact Hh|]. split; [exact Hlen|].
  rewrite List.app_assoc, Hlen, Z.add_comm.
  apply decode_hybi_app. exact Hd.
Qed.

(** X3 at a ping frame with the payload "hi", followed by one more byte. *)
Lemma roundtrip_any_length_witness :
  exists h,
    encode_hybi_header 9 2 false true = Ret h /\
    len h = header_bytes 2 /\
    decode_hybi (h ++ [Byte.x68; Byte.x69] ++ [Byte.x81]) =
      Ret (Some (9, [Byte.x68; Byte.x69], len h + 2, true)).
Proof.
  apply (roundtrip_any_length 9 [Byte.x68; Byte.x69] [Byte.x81] true).
  - lia.
  - cbn. lia.
Defined.

(** ** The header encoder, read backwards *)

Lemma encode_hybi_header_valid (opcode payload_len : Z) (has_mask fin : bool)
      (h : list byte) :
  encode_hybi_header opcode payload_len has_mask fin = Ret h ->
  0 <= opcode <= 15 /\ 0 <= payload_len < 2 ^ 64.
Proof.
  intros H.
  destruct (Z.eq_dec (Z.land opcode 0x0f) opcode) as [Hop|Hop].
  - split; [apply valid_opcode_iff; exact Hop|].
    destruct (Z_le_dec 0 payload_len) as [Hlo|Hlo];
      [destruct (Z_lt_dec payload_len (2 ^ 64)) as [Hhi|Hhi]; [lia|]|];
      rewrite encode_hybi_header_out_of_range in H by (try assumption; lia);
      discriminate H.
  - rewrite encode_hybi_header_invalid_opcode in H by assumption. discriminate H.
Qed.

Lemma code_of_ext_of_injective (l l' : Z) :
  0 <= l < 2 ^ 64 -> 0 <= l' < 2 ^ 64 ->
  code_of l = code_of l' -> ext_of l = ext_of l' -> l = l'.
Proof.
  intros Hl Hl' Hc He. unfold code_of, ext_of in *.
  destruct (Z.leb_spec l 125), (Z.leb_spec l' 125);
    try destruct (Z.ltb_spec l 65536); try destruct (Z.ltb_spec l' 65536);
    try lia.
  - rewrite <- (be_combine_split 2 l), <- (be_combine_split 2 l'), He by (cbn; lia).
    reflexivity.
  - rewrite <- (be_combine_split 8 l), <- (be_combine_split 8 l'), He by (cbn; lia).
    reflexivity.
Qed.

Lemma Ret_inj {A : Type} (a b : A) : Ret a = Ret b -> a = b.
Proof. intros H. injection H as H. exact H. Qed.

(** X4.  The header tells its inputs: two calls of [encode_hybi_header]
    that return the same header were given the same opcode, the same payload
    length and the same mask and fin flags. *)
Theorem encode_hybi_header_injective (opcode opcode' payload_len payload_len' : Z)
        (has_mask has_mask' fin fin' : bool) (h : list byte) :
  encode_hybi_header opcode payload_len has_mask fin = Ret h ->
  encode_hybi_header opcode' payload_len' has_mask' fin' = Ret h ->
  opcode = opcode' /\ payload_len = payload_len' /\
  has_mask = has_mask' /\ fin = fin'.
Proof.
  intros H H'.
  destruct (encode_hybi_header_valid _ _ _ _ _ H) as [Hop HL].
  destruct (encode_hybi_header_valid _ _ _ _ _ H') as [Hop' HL'].
  rewrite encode_hybi_header_ok in H, H' by assumption.
  rewrite <- H' in H. apply Ret_inj in H.
  assert (E : [byte.of_Z (Z.lor opcode (0x80 * Z.b2z fin));
               byte.of_Z (Z.lor (code_of payload_len) (0x80 * Z.b2z has_mask))]
                ++ ext_of payload_len ++ []
              = [byte.of_Z (Z.lor opcode' (0x80 * Z.b2z fin'));
                 byte.of_Z (Z.lor (code_of payload_len') (0x80 * Z.b2z has_mask'))]
                  ++ ext_of payload_len' ++ []).
  { rewrite !List.app_nil_r. exact H. }
  pose proof (encoded_opcode opcode payload_len has_mask fin [] Hop) as Eop.
  pose proof (encoded_fin opcode payload_len has_mask fin [] Hop) as Efin.
  pose proof (encoded_mask opcode payload_len has_mask fin [] HL) as Emask.
  pose proof (encoded_length_code opcode payload_len has_mask fin [] HL) as Ecode.
  rewrite E in Eop, Efin, Emask, Ecode.
  rewrite (encoded_opcode opcode' payload_len' has_mask' fin' [] Hop') in Eop.
  rewrite (encoded_fin opcode' payload_len' has_mask' fin' [] Hop') in Efin.
  rewrite (encoded_mask opcode' payload_len' has_mask' fin' [] HL') in Emask.
  rewrite (encoded_length_code opcode' payload_len' has_mask' fin' [] HL') in Ecode.
  repeat split; try congruence.
  apply code_of_ext_of_injective; try assumption; [congruence|].
  apply (List.app_inv_head_iff
           [byte.of_Z (Z.lor opcode (0x80 * Z.b2z fin));
            byte.of_Z (Z.lor (code_of payload_len) (0x80 * Z.b2z has_mask))]).
  rewrite H. cbn [app]. do 2 f_equal; congruence.
Qed.

(** X4 at the header of a masked binary frame of 200 bytes. *)
Lemma encode_hybi_header_injective_witness :
  2 = 2 /\ 200 = 200 /\ true = true /\ false = false.
Proof.
  apply (encode_hybi_header_injective 2 2 200 200 true true false false
           [Byte.x02; Byte.xfe; Byte.x00; Byte.xc8]); reflexivity.
Defined.

(** ** Close frames *)

Example utf8_of_two_bytes : utf8_encode [0xE9] = Ret [Byte.xc3; Byte.xa9].
Proof. reflexivity. Qed.

Example utf8_of_three_bytes :
  utf8_encode [0x20AC] = Ret [Byte.xe2; Byte.x82; Byte.xac].
Proof. reflexivity. Qed.

Example utf8_of_four_bytes :
  utf8_encode [0x1F600] = Ret [Byte.xf0; Byte.x9f; Byte.x98; Byte.x80].
Proof. reflexivity. Qed.

Example utf8_of_a_surrogate : utf8_encode [0x61; 0xD800] = Raise ValueError.
Proof. reflexivity. Qed.

Example close_packet_default :
  close_packet 8 1000 [] = Ret [Byte.x88; Byte.x02; Byte.x03; Byte.xe8].
Proof. reflexivity. Qed.

(** X5.  [close_packet] raises [struct.error] when the code does not fit
    16 bits, and the encoding error of a reason that has no UTF-8 form.
    Otherwise it returns a frame that decodes, whole, to an unmasked final
    CLOSE frame whose payload is the code in 2 big-endian bytes followed by
    the UTF-8 bytes of the reason; the length of the reason is not checked,
    and a payload above 125 bytes gets a longer header. *)
Theorem close_packet_frame (CLOSE code : Z) (reason : pystr) :
  (~ 0 <= code < 65536 -> close_packet CLOSE code reason = Raise StructError) /\
  (forall e, 0 <= code < 65536 -> utf8_encode reason = Raise e ->
             close_packet CLOSE code reason = Raise e) /\
  (forall encoded,
      0 <= CLOSE <= 15 -> 0 <= code < 65536 ->
      utf8_encode reason = Ret encoded -> len encoded < 2 ^ 64 - 2 ->
      exists frame,
        close_packet CLOSE code reason = Ret frame /\
        decode_hybi frame =
          Ret (Some (CLOSE, struct.be_split 2 code ++ encoded, len frame, true)) /\
        struct.unpack_H (slice 0 2 (struct.be_split 2 code ++ encoded)) = Ret code /\
        len frame = header_bytes (2 + len encoded) + 2 + len encoded).
Proof.
  split; [|split].
  - intros Hcode. unfold close_packet.
    rewrite pack_uint_out_of_range by (cbn; lia). reflexivity.
  - intros e Hcode He. unfold close_packet.
    rewrite pack_uint_ok by (cbn; lia). cbn [pybind].
    destruct reason as [|cp rest]; [discriminate He|].
    rewrite He. reflexivity.
  - intros encoded HC Hcode He Hlen.
    assert (Hdata : len (struct.be_split 2 code ++ encoded) = 2 + len encoded).
    { rewrite len_app. unfold len at 1. rewrite length_be_split. lia. }
    pose proof (len_nonneg encoded) as Hnn.
    destruct (decode_encoded CLOSE (struct.be_split 2 code ++ encoded) true HC)
      as (h & Hh & Hhl & Hd); [lia|].
    exists (h ++ struct.be_split 2 code ++ encoded).
    split.
    { unfold close_packet. rewrite pack_uint_ok by (cbn; lia). cbn [pybind].
      destruct reason as [|cp rest].
      - cbn [utf8_encode] in He. apply Ret_inj in He. subst encoded.
        cbn [pybind]. rewrite List.app_nil_r in *. rewrite Hh. reflexivity.
      - rewrite He. cbn [pybind]. rewrite Hh. reflexivity. }
    split.
    { rewrite Hd. do 4 f_equal. rewrite (len_app h). lia. }
    split.
    { rewrite (slice_app_l 0 2) by (rewrite length_be_split; lia).
      unfold struct.unpack_H.
      rewrite unpack_uint_slice;
        [|lia|reflexivity|unfold len; rewrite length_be_split; lia].
      f_equal.
      replace (slice 0 2 (struct.be_split 2 code)) with (struct.be_split 2 code).
      - apply be_combine_split. cbn. lia.
      - unfold slice. cbn [Z.to_nat Pos.to_nat Pos.iter_op Nat.add Nat.sub skipn].
        symmetry. apply List.firstn_all2. rewrite length_be_split. lia. }
    rewrite len_app, Hhl, Hdata. lia.
Qed.

(** X5 at the code 1001 and the reason "bye". *)
Lemma close_packet_frame_witness :
  exists frame,
    close_packet 8 1001 [0x62; 0x79; 0x65] = Ret frame /\
    decode_hybi frame =
      Ret (Some (8, struct.be_split 2 1001 ++ [Byte.x62; Byte.x79; Byte.x65],
                 len frame, true)) /\
    struct.unpack_H
      (slice 0 2 (struct.be_split 2 1001 ++ [Byte.x62; Byte.x79; Byte.x65])) =
      Ret 1001 /\
    len frame = header_bytes (2 + len [Byte.x62; Byte.x79; Byte.x65])
                + 2 + len [Byte.x62; Byte.x79; Byte.x65].
Proof.
  apply (proj2 (proj2 (close_packet_frame 8 1001 [0x62; 0x79; 0x65]))).
  - lia.
  - lia.
  - reflexivity.
  - cbn. lia.
Defined.

(** ** The callee: sending, and handing over *)

Section CalleeRuns.

Import SubprocessCallee.

Variable cfg : settings.

Lemma count_calls_after_calls {O : Type} (kind : event -> bool) (l : list event)
      (w : world O) :
  count_calls kind (after_calls l w) =
    (count_calls kind w + List.length (filter kind l))%nat.
Proof.
  unfold count_calls. rewrite calls_after_calls, List.filter_app, List.length_app.
  reflexivity.
Qed.

Lemma get_packet_empty (w : W) :
  send_queue (self w) = [] -> get_packet w = (Ret (None, false, false), w).
Proof.
  intros Hq.
  unfold get_packet, bind, try_except, gets, lift, modify, ret.
  rewrite Hq. reflexivity.
Qed.

Lemma get_packet_cons (w : W) (p : Packet) (rest : list Packet) :
  send_queue (self w) = p :: rest ->
  get_packet w =
    (Ret (Some p, false, match rest with [] => false | _ => true end),
     on_self (set_send_queue rest) w).
Proof.
  intros Hq.
  unfold get_packet, bind, try_except, gets, lift, modify, ret.
  rewrite Hq. cbn [SimpleQueue.get]. destruct rest; reflexivity.
Qed.

Lemma get_packets_all (q : list Packet) :
  forall w, send_queue (self w) = q ->
    exists w',
      get_packets (S (List.length q)) w = (Ret (handed_over q), w') /\
      send_queue (self w') = [] /\
      glob w' = glob w /\
      protocol (self w') = protocol (self w).
Proof.
  induction q as [|p rest IH]; intros w Hq.
  - exists w. cbn [List.length get_packets handed_over].
    unfold bind. rewrite (get_packet_empty w Hq). auto.
  - destruct (IH (on_self (set_send_queue rest) w) eq_refl)
      as (w' & Hrun & Hq' & Hg & Hp).
    exists w'. cbn [List.length handed_over].
    change (get_packets (S (S (List.length rest))))
      with (bind get_packet
                 (fun r => bind (get_packets (S (List.length rest)))
                                (fun rs => ret (r :: rs)))).
    unfold bind at 1. rewrite (get_packet_cons w p rest Hq).
    unfold bind at 1. rewrite Hrun. auto.
Qed.

Lemma send_all_returns (msgs : list (string * list PacketElement)) :
  forall w, protocol (self w) <> None \/ FAULT_RATE cfg <= 0 ->
    exists w',
      send_all cfg msgs w = (Ret tt, w') /\
      send_queue (self w') =
        send_queue (self w) ++ map (fun m => sent_packet cfg (fst m) (snd m)) msgs /\
      protocol (self w') = protocol (self w).
Proof.
  induction msgs as [|[packet_type args] msgs IH]; intros w Hp.
  - exists w. cbn [send_all map]. rewrite List.app_nil_r. auto.
  - destruct (send_returns cfg packet_type args w Hp)
      as (w1 & l & Hsend & Hself & _ & _ & _).
    assert (Hp1 : protocol (self w1) = protocol (self w)) by (rewrite Hself; reflexivity).
    destruct (IH w1) as (w' & Hrun & Hq & Hp').
    { rewrite Hp1. exact Hp. }
    exists w'. cbn [send_all map fst snd]. unfold bind. rewrite Hsend.
    split; [exact Hrun|]. split; [|congruence].
    rewrite Hq, Hself. cbn [send_queue set_send_queue]. unfold SimpleQueue.put.
    rewrite <- List.app_assoc. reflexivity.
Qed.

(** X6.  In a callee whose protocol is set, or without fault injection,
    the messages sent are handed over by [get_packet] in the order they were
    sent, after those that were waiting: each with the flag that tells
    whether more are waiting, and then [(None, False, False)], the queue
    being empty. *)
Theorem sent_packets_are_handed_over_in_order
        (msgs : list (string * list PacketElement)) (w : W) :
  protocol (self w) <> None \/ FAULT_RATE cfg <= 0 ->
  exists w1 w2,
    send_all cfg msgs w = (Ret tt, w1) /\
    get_packets (S (List.length (send_queue (self w)) + List.length msgs)) w1 =
      (Ret (handed_over
              (send_queue (self w)
                 ++ map (fun m => sent_packet cfg (fst m) (snd m)) msgs)),
       w2) /\
    send_queue (self w2) = [].
Proof.
  intros Hp.
  destruct (send_all_returns msgs w Hp) as (w1 & Hsend & Hq & _).
  destruct (get_packets_all (send_queue (self w1)) w1 eq_refl)
    as (w2 & Hget & Hq2 & _).
  exists w1, w2. split; [exact Hsend|]. split; [|exact Hq2].
  rewrite <- Hq. rewrite <- Hget. do 2 f_equal.
  rewrite Hq, List.length_app, List.length_map. reflexivity.
Qed.

Lemma INJECT_FAULT_None {O : Type} (w : world O) :
  INJECT_FAULT cfg None w =
    if (FAULT_RATE cfg >? 0) then
      if (_counter (glob w) + 1) mod FAULT_RATE cfg =? 0
      then (Raise AttributeError,
            after_calls [Log warn "injecting fault in %s"]
              (on_glob (set_counter (_counter (glob w) + 1)) w))
      else (Ret tt, on_glob (set_counter (_counter (glob w) + 1)) w)
    else (Ret tt, w).
Proof.
  unfold INJECT_FAULT. destruct (FAULT_RATE cfg >? 0); [|reflexivity].
  unfold do_inject_fault, bind, modify, gets, emit, call_raw_write, raise, ret.
  cbn [on_glob glob self set_counter _counter].
  destruct (_ =? 0); reflexivity.
Qed.

(** X7.  [send] puts its packet on the queue in every case.  It raises
    only [AttributeError], and exactly when there is no protocol and the
    fault injection fires on this call; otherwise it returns. *)
Theorem send_raises_only_without_protocol (packet_type : string)
        (args : list PacketElement) (w : W) :
  exists r w',
    send cfg packet_type args w = (r, w') /\
    send_queue (self w') = send_queue (self w) ++ [sent_packet cfg packet_type args] /\
    protocol (self w') = protocol (self w) /\
    (r = Ret tt \/ r = Raise AttributeError) /\
    (r = Raise AttributeError <->
     protocol (self w) = None /\ 0 < FAULT_RATE cfg /\
     (_counter (glob w) + 1) mod FAULT_RATE cfg = 0).
Proof.
  rewrite send_unfold.
  destruct (protocol (self w)) as [p|] eqn:Hp.
  - destruct (Z_le_dec (FAULT_RATE cfg) 0) as [Hrate|Hrate].
    + rewrite INJECT_FAULT_disabled by assumption.
      do 2 eexists. split; [reflexivity|].
      rewrite self_after_calls. cbn [on_self self set_send_queue send_queue protocol].
      repeat split; auto; try discriminate. intros (H & _). discriminate H.
    + rewrite INJECT_FAULT_enabled by lia.
      do 2 eexists. split; [reflexivity|].
      rewrite !self_after_calls.
      cbn [on_self on_glob self set_send_queue send_queue protocol].
      repeat split; auto; try discriminate. intros (H & _). discriminate H.
  - rewrite INJECT_FAULT_None.
    rewrite counter_after_calls. cbn [on_self glob].
    destruct (Z.gtb_spec (FAULT_RATE cfg) 0) as [Hrate|Hrate];
      [destruct (Z.eqb_spec ((_counter (glob w) + 1) mod FAULT_RATE cfg) 0) as [Hc|Hc]|];
      do 2 eexists; (split; [reflexivity|]);
      rewrite ?self_after_calls;
      cbn [on_self on_glob self set_send_queue send_queue protocol];
      (split; [reflexivity|]); (split; [exact Hp|]).
    + split; [right; reflexivity|]. split; auto.
    + split; [left; reflexivity|]. split; [discriminate | intros (_ & _ & H); contradiction].
    + split; [left; reflexivity|]. split; [discriminate | intros (_ & H & _); lia].
Qed.

End CalleeRuns.

(** X6 at two messages sent by the started callee. *)
Lemma sent_packets_are_handed_over_in_order_witness :
  exists w1 w2,
    send_all default_settings [("a"%string, []); ("b"%string, [EInt 1])] echo_callee =
      (Ret tt, w1) /\
    get_packets 3 w1 =
      (Ret [(Some (mkPacket "a" []), false, true);
            (Some (mkPacket "b" [EInt 1]), false, false);
            (None, false, false)],
       w2) /\
    SubprocessCallee.send_queue (self w2) = [].
Proof.
  apply (sent_packets_are_handed_over_in_order default_settings
           [("a"%string, []); ("b"%string, [EInt 1])] echo_callee).
  left. discriminate.
Defined.

Section CalleeStops.

Import SubprocessCallee.

Variable cfg : settings.

(** X8.  When the fault injection fires on the [send] of [handle_signal]
    and there is no protocol yet, the signal packet is on the queue and
    [signal_stop] is the handler, but [handle_signal] ends with the
    [AttributeError]: neither [cleanup] nor [stop] is scheduled. *)
Theorem handle_signal_without_protocol (sig : Z) (w : W) :
  os_signal_handler (glob w) = Some bound_handle_signal ->
  protocol (self w) = None -> 0 < FAULT_RATE cfg ->
  (_counter (glob w) + 1) mod FAULT_RATE cfg = 0 ->
  exists w',
    deliver_signal cfg sig w = (Raise AttributeError, w') /\
    send_queue (self w') =
      send_queue (self w) ++ [sent_packet cfg "signal" [signame cfg sig]] /\
    os_signal_handler (glob w') = Some bound_signal_stop /\
    count_calls is_timeout_add w' = count_calls is_timeout_add w.
Proof.
  intros Hh Hp Hrate Hc.
  unfold deliver_signal, bind at 1, gets. rewrite Hh.
  rewrite handle_signal_unfold.
  unfold bind at 1. rewrite send_unfold.
  rewrite self_after_calls. cbn [on_glob self]. rewrite Hp.
  rewrite INJECT_FAULT_None.
  repeat first [ rewrite counter_after_calls
               | progress cbn [on_self on_glob glob set_handler _counter] ].
  destruct (Z.gtb_spec (FAULT_RATE cfg) 0) as [_|]; [|lia].
  rewrite Hc. cbn [Z.eqb].
  eexists. split; [reflexivity|].
  split; [|split].
  - repeat first [ rewrite self_after_calls
                 | progress cbn [on_self on_glob self set_send_queue send_queue] ].
    reflexivity.
  - repeat first [ rewrite handler_after_calls
                 | progress cbn [on_self on_glob glob set_counter set_handler
                                 os_signal_handler] ].
    reflexivity.
  - unfold count_calls.
    repeat first [ rewrite calls_after_calls
                 | progress cbn [on_self on_glob glob set_counter set_handler calls] ].
    rewrite !List.filter_app. cbn [filter is_timeout_add].
    rewrite !List.app_nil_r. reflexivity.
Qed.

Lemma stops_without_protocol (n : nat) :
  forall w, protocol (self w) = None ->
    exists w',
      stops n w = (Ret tt, w') /\
      protocol (self w') = None /\
      send_queue (self w') = send_queue (self w) /\
      count_calls is_protocol_close w' = count_calls is_protocol_close w /\
      count_calls is_cleanup w' = (count_calls is_cleanup w + n)%nat /\
      count_calls is_mainloop_quit w' = (count_calls is_mainloop_quit w + n)%nat.
Proof.
  induction n as [|n IH]; intros w Hp.
  - exists w. cbn [stops]. unfold ret. repeat split; auto.
  - cbn [stops]. unfold bind. rewrite stop_unfold, Hp.
    match goal with
    | |- context [stops n ?w1] => destruct (IH w1) as (w' & Hrun & Hp' & Hq & Hc & Hcl & Hm)
    end.
    { rewrite self_after_calls. reflexivity. }
    exists w'. split; [exact Hrun|]. split; [exact Hp'|].
    rewrite Hq, Hc, Hcl, Hm, self_after_calls, !count_calls_after_calls.
    cbn [on_self self set_protocol send_queue app filter is_protocol_close is_cleanup
         is_mainloop_quit List.length].
    unfold count_calls. cbn [on_self glob].
    repeat split; lia.
Qed.

(** X9.  However many times [stop] is called, the protocol is closed
    once if there was one and never otherwise, and is unset from the first
    call on; the [cleanup] hook and the end of the main loop run every time,
    and the send queue is left as it is. *)
Theorem stop_closes_the_protocol_once (n : nat) (w : W) :
  exists w',
    stops (S n) w = (Ret tt, w') /\
    protocol (self w') = None /\
    send_queue (self w') = send_queue (self w) /\
    count_calls is_protocol_close w' =
      (count_calls is_protocol_close w
       + match protocol (self w) with Some _ => 1 | None => 0 end)%nat /\
    count_calls is_cleanup w' = (count_calls is_cleanup w + S n)%nat /\
    count_calls is_mainloop_quit w' = (count_calls is_mainloop_quit w + S n)%nat.
Proof.
  cbn [stops]. unfold bind. rewrite stop_unfold.
  match goal with
  | |- context [stops n ?w1] =>
      destruct (stops_without_protocol n w1) as (w' & Hrun & Hp' & Hq & Hc & Hcl & Hm)
  end.
  { rewrite self_after_calls. reflexivity. }
  exists w'. split; [exact Hrun|]. split; [exact Hp'|].
  rewrite Hq, Hc, Hcl, Hm, self_after_calls, !count_calls_after_calls.
  cbn [on_self self set_protocol send_queue].
  unfold count_calls. cbn [on_self glob].
  destruct (protocol (self w));
    cbn [app filter is_protocol_close is_cleanup is_mainloop_quit List.length];
    repeat split; lia.
Qed.

End CalleeStops.

(** X8 at rate 1, for a callee that was not started. *)
Lemma handle_signal_without_protocol_witness :
  exists w',
    SubprocessCallee.deliver_signal fault_rate_1 15
      new_callee = (Raise AttributeError, w') /\
    SubprocessCallee.send_queue (self w') = [mkPacket "signal" [EInt 15]] /\
    os_signal_handler (glob w') = Some bound_signal_stop /\
    count_calls is_timeout_add w' = 0%nat.
Proof.
  apply (handle_signal_without_protocol
           fault_rate_1 15
           new_callee); reflexivity.
Defined.

(** ** The caller: subscriptions *)

Section CallerSignals.

Import SubprocessCaller.

Variable cfg : settings.

Lemma dict_get_setdefault_append_same (key : string)
      (x : callable * list PacketElement) (d : list (string * registrations)) :
  dict_get key (setdefault_append key x d) = dict_get key d ++ [x].
Proof.
  induction d as [|[k v] d IH]; cbn [setdefault_append dict_get].
  - rewrite String.eqb_refl. reflexivity.
  - destruct (String.eqb_spec k key) as [->|Hne]; cbn [dict_get].
    + rewrite String.eqb_refl. reflexivity.
    + destruct (String.eqb_spec k key); [contradiction | exact IH].
Qed.

Lemma dict_get_setdefault_append_other (key key' : string)
      (x : callable * list PacketElement) (d : list (string * registrations)) :
  key' <> key -> dict_get key' (setdefault_append key x d) = dict_get key' d.
Proof.
  intros Hne. induction d as [|[k v] d IH]; cbn [setdefault_append dict_get].
  - destruct (String.eqb_spec key key'); [congruence | reflexivity].
  - destruct (String.eqb_spec k key) as [->|Hk]; cbn [dict_get].
    + destruct (String.eqb_spec key key'); [congruence | reflexivity].
    + destruct (String.eqb_spec k key'); [reflexivity | exact IH].
Qed.

(** The [idle_add] call for one registration. *)
Lemma fire_each_calls (callbacks : registrations) (extra_args : list PacketElement) :
  forall w,
    fire_each callbacks extra_args w =
      (Ret tt, after_calls (map (fired extra_args) callbacks) w).
Proof.
  induction callbacks as [|[cb args] rest IH]; intros w; cbn [fire_each map].
  - reflexivity.
  - unfold bind, emit, modify. rewrite IH. reflexivity.
Qed.

Lemma fire_callback_calls (signal_name : string) (extra_args : list PacketElement)
      (w : W) :
  _fire_callback signal_name extra_args w =
    (Ret tt,
     after_calls
       (Log debug "firing callback for '%s': %s"
          :: map (fired extra_args)
                 (dict_get signal_name (signal_callbacks (self w)))) w).
Proof.
  unfold _fire_callback, bind, gets, emit, modify. rewrite fire_each_calls.
  reflexivity.
Qed.

(** X10.  After [connect(signal, cb, *args)], firing [signal] schedules
    the callbacks that were registered for it before, in the order of their
    registration, and then [cb]; each one is scheduled with the caller
    itself, then its own arguments, then the extra ones.  What fires for
    another signal is what fired before; [connect] itself schedules
    nothing. *)
Theorem connect_then_fire (signal other : string) (cb : callable)
        (args extra_args : list PacketElement) (w : W) :
  exists w1,
    connect signal cb args w = (Ret tt, w1) /\
    glob w1 = glob w /\
    _fire_callback signal extra_args w1 =
      (Ret tt,
       after_calls
         (Log debug "firing callback for '%s': %s"
            :: map (fun r => idle_add_args
                               (fst r)
                               (caller_instance
                                  :: map element (snd r ++ extra_args)))
                   (dict_get signal (signal_callbacks (self w)))
            ++ [idle_add_args
                  cb (caller_instance :: map element (args ++ extra_args))]) w1) /\
    (other <> signal ->
     _fire_callback other extra_args w1 =
       (Ret tt,
        after_calls
          (Log debug "firing callback for '%s': %s"
             :: map (fun r => idle_add_args
                                (fst r)
                                (caller_instance
                                   :: map element (snd r ++ extra_args)))
                    (dict_get other (signal_callbacks (self w)))) w1)).
Proof.
  eexists. split; [reflexivity|]. split; [reflexivity|].
  rewrite !fire_callback_calls.
  cbn [on_self self set_signal_callbacks signal_callbacks].
  split.
  - rewrite dict_get_setdefault_append_same, List.map_app. reflexivity.
  - intros Hne. rewrite dict_get_setdefault_append_other by exact Hne. reflexivity.
Qed.

Lemma INJECT_FAULT_with_protocol {O : Type} (p : Protocol) (w : world O) :
  exists w',
    INJECT_FAULT cfg (Some p) w = (Ret tt, w') /\
    self w' = self w /\
    calls (glob w') =
      calls (glob w) ++ (if FAULT_RATE cfg >? 0
                         then fault_calls cfg p (_counter (glob w))
                         else []).
Proof.
  destruct (Z.gtb_spec (FAULT_RATE cfg) 0).
  - eexists. split; [apply INJECT_FAULT_enabled; assumption|].
    rewrite self_after_calls, calls_after_calls. split; reflexivity.
  - eexists. split; [apply INJECT_FAULT_disabled; assumption|].
    rewrite List.app_nil_r. split; reflexivity.
Qed.

Lemma scheduled_fault_calls (p : Protocol) (c : Z) :
  scheduled (if FAULT_RATE cfg >? 0 then fault_calls cfg p c else []) = [].
Proof.
  unfold fault_calls. destruct (FAULT_RATE cfg >? 0); [|reflexivity].
  destruct (_ =? 0); reflexivity.
Qed.

Lemma scheduled_fired (extra_args : list PacketElement) (l : registrations) :
  scheduled (map (fired extra_args) l) = map (fired extra_args) l.
Proof.
  induction l as [|r l IH]; cbn [map scheduled filter fired].
  - reflexivity.
  - fold (scheduled (map (fired extra_args) l)). rewrite IH. reflexivity.
Qed.

(** What the caller's [process_packet] does, call by call. *)
Lemma caller_process_packet_calls (proto : Protocol) (packet : Packet) (w : W) :
  exists w' l,
    process_packet cfg proto packet w = (Ret tt, w') /\
    self w' = self w /\
    calls (glob w') = calls (glob w) ++ l /\
    scheduled l =
      map (fired (pargs packet))
          (dict_get (ptag packet) (signal_callbacks (self w))).
Proof.
  unfold process_packet, bind, lift, get_str.
  assert (Hdebug : exists l0,
             (if DEBUG_WRAPPER cfg
              then emit (Log debug "process_packet(%s, %s)")
              else ret tt) w = (Ret tt, after_calls l0 w) /\ scheduled l0 = []).
  { destruct (DEBUG_WRAPPER cfg); [exists [Log debug "process_packet(%s, %s)"]
                                  | exists []]; split; reflexivity. }
  destruct Hdebug as (l0 & -> & Hl0).
  rewrite fire_callback_calls.
  match goal with
  | |- context [INJECT_FAULT cfg (Some proto) ?w0] =>
      destruct (INJECT_FAULT_with_protocol proto w0) as (w' & -> & Hs & Hc)
  end.
  eexists. eexists. split; [reflexivity|].
  rewrite Hs, Hc, !self_after_calls, !calls_after_calls, !counter_after_calls.
  split; [reflexivity|].
  rewrite <- !List.app_assoc. split; [reflexivity|].
  unfold scheduled. rewrite !List.filter_app.
  fold (scheduled l0). rewrite Hl0.
  cbn [app filter].
  match goal with
  | |- context [filter ?f (map ?g ?l)] =>
      change (filter f (map g l)) with (scheduled (map g l))
  end.
  rewrite scheduled_fired.
  match goal with
  | |- context [filter ?f (if ?c then ?a else ?b)] =>
      change (filter f (if c then a else b)) with (scheduled (if c then a else b))
  end.
  rewrite scheduled_fault_calls, List.app_nil_r. reflexivity.
Qed.

(** X11.  The caller's [process_packet] returns for every packet and
    leaves the caller as it is; what it schedules is exactly the callbacks
    registered for the tag of the packet, in order, each with the caller
    itself, then its own arguments, then the elements of the packet after
    the tag: for a tag without a registration, nothing.  A new caller has
    two registrations, its own handlers of [connection-lost] and of
    [gibberish]. *)
Theorem caller_process_packet_fires (proto : Protocol) (packet : Packet) (w : W) :
  (exists w' l,
      process_packet cfg proto packet w = (Ret tt, w') /\
      self w' = self w /\
      calls (glob w') = calls (glob w) ++ l /\
      scheduled l =
        map (fun r => idle_add_args
                        (fst r)
                        (caller_instance :: map element (snd r ++ pargs packet)))
            (dict_get (ptag packet) (signal_callbacks (self w)))) /\
  (forall description g,
      signal_callbacks (self (__init__ description g)) =
        [(CONNECTION_LOST, [(bound_connection_lost, [])]);
         (GIBBERISH, [(bound_gibberish, [])])]).
Proof.
  split; [|reflexivity]. apply caller_process_packet_calls.
Qed.

End CallerSignals.

(** ** The caller: stopping *)

Section CallerStops.

Import SubprocessCaller.

Variable terminate_fails : Popen -> bool.
Variable close_fails : Protocol -> bool.

Lemma stop_outcome (s : stopping) :
  exists s' l,
    stop terminate_fails close_fails s = (Ret tt, s') /\
    self (caller s') = set_protocol None (set_process None (self (caller s))) /\
    terminate_calls s' = terminate_calls s ++ to_terminate (self (caller s)) /\
    calls (glob (caller s')) = calls (glob (caller s)) ++ l /\
    closes l = to_close (self (caller s)).
Proof.
  destruct s as [[g [[[[rc|]]|] pt d q cbs]] tc]; destruct pt as [p|];
    unfold stop, stop_process, stop_protocol, call_terminate, in_caller, emit,
      to_terminate, to_close;
    unfold bind, modify, gets, ret, add_call, on_glob, on_self;
    cbn [caller self glob process protocol terminate_calls set_process
         set_protocol description send_queue signal_callbacks calls poll];
    repeat match goal with
           | |- context [if ?c then _ else _] =>
               destruct c;
               cbn [caller self glob process protocol terminate_calls set_process
                    set_protocol description send_queue signal_callbacks calls poll]
           end;
    rewrite <- ?List.app_assoc;
    eexists; eexists; (split; [reflexivity|]);
    cbn [caller self glob process protocol terminate_calls set_process
         set_protocol description send_queue signal_callbacks calls];
    (split; [reflexivity|]);
    (split; [first [reflexivity | symmetry; apply List.app_nil_r]|]);
    (split; [reflexivity|]); reflexivity.
Qed.

(** X12.  The caller's [stop()] returns whatever [terminate()] and
    [close()] do, raising or not.  It calls [terminate()] on the process
    only if one is set and still runs, and [close()] on the protocol only
    if one is set, each once; it leaves both unset and the queue and the
    registrations as they are.  A second [stop()] calls neither again, and
    [abort_test] raises [ConnectionClosedException] from then on. *)
Theorem caller_stop_is_idempotent (s : stopping) (action : string) :
  exists s1 s2 l1 l2,
    stop terminate_fails close_fails s = (Ret tt, s1) /\
    stop terminate_fails close_fails s1 = (Ret tt, s2) /\
    process (self (caller s1)) = None /\
    protocol (self (caller s1)) = None /\
    send_queue (self (caller s1)) = send_queue (self (caller s)) /\
    signal_callbacks (self (caller s1)) = signal_callbacks (self (caller s)) /\
    terminate_calls s1 = terminate_calls s ++ to_terminate (self (caller s)) /\
    calls (glob (caller s1)) = calls (glob (caller s)) ++ l1 /\
    closes l1 = to_close (self (caller s)) /\
    self (caller s2) = self (caller s1) /\
    terminate_calls s2 = terminate_calls s1 /\
    calls (glob (caller s2)) = calls (glob (caller s1)) ++ l2 /\
    closes l2 = [] /\
    fst (abort_test action (caller s1)) = Raise ConnectionClosedException.
Proof.
  destruct (stop_outcome s) as (s1 & l1 & H1 & Hself1 & Ht1 & Hc1 & Hl1).
  destruct (stop_outcome s1) as (s2 & l2 & H2 & Hself2 & Ht2 & Hc2 & Hl2).
  exists s1, s2, l1, l2.
  rewrite Hself1 in Hself2, Ht2, Hl2. rewrite Hself1.
  unfold to_terminate, to_close in Ht2, Hl2.
  cbn [set_process set_protocol process protocol description send_queue
       signal_callbacks] in *.
  rewrite List.app_nil_r in Ht2.
  repeat (split; [first [assumption | reflexivity]|]).
  unfold abort_test, bind, gets. rewrite Hself1. reflexivity.
Qed.

Variable cfg : settings.

Lemma stop_after_logs (logs : list event) (w0 w1 : W) (tc : list Popen) :
  self w1 = self w0 -> closes logs = [] ->
  stopped_by (fun s => stop terminate_fails close_fails
                         (mkStopping (after_calls logs (caller s))
                                     (terminate_calls s)))
             w0 w1 tc.
Proof.
  intros Hself Hlogs. unfold stopped_by. cbn [caller terminate_calls].
  destruct (stop_outcome (mkStopping (after_calls logs w1) tc))
    as (s' & l & Hrun & Hs & Ht & Hc & Hl).
  cbn [caller terminate_calls] in *.
  rewrite self_after_calls, Hself in *. rewrite calls_after_calls in Hc.
  exists s', (logs ++ l). split; [exact Hrun|].
  rewrite Hs. split; [reflexivity|]. split; [reflexivity|].
  split; [exact Ht|]. split; [rewrite Hc; symmetry; apply List.app_assoc|].
  unfold closes in *. rewrite List.filter_app, Hlogs. exact Hl.
Qed.

(** X13.  A caller that has its two registrations of the start handles
    a [connection-lost] packet and a [gibberish] packet by one scheduled
    call of its handler, with the caller itself followed by the data of the
    packet.  Called with these arguments, [connection_lost] stops the
    caller: the process is terminated if it runs, the protocol closed if
    there is one, and both are unset.  So does [gibberish] when the packet
    has data; for a packet of the tag alone it raises [IndexError], reading
    its second argument, and the caller is not stopped. *)
Theorem control_packets_stop_the_caller (proto : Protocol) (packet : Packet)
        (w : W) (tc : list Popen) :
  signal_callbacks (self w) =
    [(CONNECTION_LOST, [(bound_connection_lost, [])]);
     (GIBBERISH, [(bound_gibberish, [])])] ->
  exists w1 l,
    process_packet cfg proto packet w = (Ret tt, w1) /\
    calls (glob w1) = calls (glob w) ++ l /\
    (ptag packet = CONNECTION_LOST ->
     scheduled l =
       [idle_add_args bound_connection_lost
                      (caller_instance :: map element (pargs packet))] /\
     stopped_by (connection_lost terminate_fails close_fails
                   (caller_instance :: map element (pargs packet)))
                w w1 tc) /\
    (ptag packet = GIBBERISH ->
     scheduled l =
       [idle_add_args bound_gibberish
                      (caller_instance :: map element (pargs packet))] /\
     (pargs packet <> [] ->
      stopped_by (gibberish terminate_fails close_fails
                    (caller_instance :: map element (pargs packet)))
                 w w1 tc) /\
     (pargs packet = [] ->
      gibberish terminate_fails close_fails
                (caller_instance :: map element (pargs packet))
                (mkStopping w1 tc) =
        (Raise IndexError,
         mkStopping (after_calls [Log warn "%s stopping on gibberish:"] w1) tc) /\
      process (self w1) = process (self w) /\
      protocol (self w1) = protocol (self w))).
Proof.
  intros Hreg.
  destruct (caller_process_packet_calls cfg proto packet w)
    as (w1 & l & Hrun & Hself & Hcalls & Hsched).
  exists w1, l. split; [exact Hrun|]. split; [exact Hcalls|].
  rewrite Hreg in Hsched. split.
  - intros Htag. rewrite Htag in Hsched. split; [exact Hsched|].
    apply (stop_after_logs [Log debug "connection_lost%s"]);
      [exact Hself | reflexivity].
  - intros Htag. rewrite Htag in Hsched. split; [exact Hsched|]. split.
    + intros Hdata. destruct (pargs packet) as [|x rest]; [congruence|].
      apply (stop_after_logs [Log warn "%s stopping on gibberish:"; Log warn " %s"]);
        [exact Hself | reflexivity].
    + intros ->. rewrite Hself. repeat split; reflexivity.
Qed.

End CallerStops.

(** X13 for a running caller: a [gibberish] packet of the tag alone, and
    a [connection-lost] packet. *)
Lemma control_packets_stop_the_caller_witness :
  (exists w1,
      SubprocessCaller.process_packet default_settings proto0
        (mkPacket GIBBERISH []) running_caller = (Ret tt, w1) /\
      fst (SubprocessCaller.gibberish always_fails always_fails [caller_instance]
             (SubprocessCaller.mkStopping w1 [])) = Raise IndexError /\
      SubprocessCaller.process (self w1) = Some (mkPopen None)) /\
  (exists w1,
      SubprocessCaller.process_packet default_settings proto0
        (mkPacket CONNECTION_LOST []) running_caller = (Ret tt, w1) /\
      stopped_by
        (SubprocessCaller.connection_lost always_fails always_fails
           [caller_instance])
        running_caller w1 []).
Proof.
  split.
  - destruct (control_packets_stop_the_caller
                always_fails always_fails default_settings proto0
                (mkPacket GIBBERISH []) running_caller [] eq_refl)
      as (w1 & l & Hrun & _ & _ & Hgib).
    destruct (Hgib eq_refl) as (_ & _ & Hbare).
    destruct (Hbare eq_refl) as (Hraise & Hproc & _).
    exists w1. split; [exact Hrun|]. cbn [pargs map] in Hraise.
    rewrite Hraise. split; [reflexivity | exact Hproc].
  - destruct (control_packets_stop_the_caller
                always_fails always_fails default_settings proto0
                (mkPacket CONNECTION_LOST []) running_caller [] eq_refl)
      as (w1 & l & Hrun & _ & Hlost & _).
    exists w1. split; [exact Hrun|]. apply (Hlost eq_refl).
Defined.

(** ** The module functions *)

Lemma setitem_same {V : Type} (k : string) (v : V) (d : dict V) :
  setitem k v d k = Some v.
Proof. unfold setitem. rewrite String.eqb_refl. reflexivity. Qed.

Lemma setitem_other {V : Type} (k k' : string) (v : V) (d : dict V) :
  k' <> k -> setitem k v d k' = d k'.
Proof.
  intros Hne. unfold setitem. destruct (String.eqb_spec k' k); [contradiction|].
  reflexivity.
Qed.

(** X14.  The environment of the subprocess is the inherited one with
    five variables forced, whatever the inherited environment says of them:
    [XPRA_SKIP_UI] and [XPRA_FORCE_COLOR_LOG] by [exec_env],
    [XPRA_LOG_PREFIX] (the description and one space),
    [XPRA_FIX_UNICODE_OUT] and [XPRA_WAIT_FOR_INPUT] by [get_env], which
    keeps the two of [exec_env]; every other variable is inherited as it
    is. *)
Theorem get_env_forces_five (inherited : dict string) (o : SubprocessCaller.t)
        (k : string) :
  get_env inherited o "XPRA_SKIP_UI"%string = Some "1"%string /\
  get_env inherited o "XPRA_FORCE_COLOR_LOG"%string = Some "1"%string /\
  get_env inherited o "XPRA_LOG_PREFIX"%string =
    Some (SubprocessCaller.description o ++ " ")%string /\
  get_env inherited o "XPRA_FIX_UNICODE_OUT"%string = Some "0"%string /\
  get_env inherited o "XPRA_WAIT_FOR_INPUT"%string = Some "0"%string /\
  (~ In k ["XPRA_SKIP_UI"; "XPRA_FORCE_COLOR_LOG"; "XPRA_LOG_PREFIX";
           "XPRA_FIX_UNICODE_OUT"; "XPRA_WAIT_FOR_INPUT"]%string ->
   get_env inherited o k = inherited k /\
   exec_env inherited k = inherited k).
Proof.
  repeat (split; [reflexivity|]).
  intros Hk. cbn [In] in Hk. unfold get_env, exec_env.
  rewrite !setitem_other by (intros ->; tauto). split; reflexivity.
Qed.

Lemma encoders_tried_app (l l' : list protocol_call) :
  encoders_tried (l ++ l') = encoders_tried l ++ encoders_tried l'.
Proof. unfold encoders_tried. apply List.flat_map_app. Qed.

Lemma enable_first_tried (accepts : string -> bool) (encoders : list string) :
  exists tried rest,
    encoders = tried ++ rest /\
    encoders_tried (enable_first accepts encoders) = tried /\
    forallb (fun e => negb (accepts e)) (removelast tried) = true /\
    (rest <> [] -> tried <> [] /\ forall d, accepts (last tried d) = true) /\
    (forallb (fun e => negb (accepts e)) encoders = true -> rest = []).
Proof.
  induction encoders as [|e encoders IH]; cbn [enable_first].
  - exists [], []. split; [reflexivity|]. split; [reflexivity|].
    split; [reflexivity|]. split; [congruence | reflexivity].
  - destruct (accepts e) eqn:He.
    + exists [e], encoders. cbn [encoders_tried flat_map app removelast forallb last].
      split; [reflexivity|]. split; [reflexivity|]. split; [reflexivity|]. split.
      * intros _. split; [congruence | intros d; exact He].
      * rewrite He. cbn [negb andb]. intros H; discriminate.
    + destruct IH as (tried & rest & Heq & Htried & Hrej & Hacc & Hall).
      exists (e :: tried), rest. split; [cbn [app]; congruence|].
      split; [cbn [encoders_tried flat_map app];
              fold (encoders_tried (enable_first accepts encoders));
              rewrite Htried; reflexivity|].
      split.
      * destruct tried as [|t tried]; [reflexivity|].
        change (removelast (e :: t :: tried)) with (e :: removelast (t :: tried)).
        cbn [forallb]. rewrite He, Hrej. reflexivity.
      * split.
        -- intros Hrest. destruct (Hacc Hrest) as (Hne & Hax).
           destruct tried as [|t tried]; [congruence|].
           split; [congruence|]. intros d.
           change (last (e :: t :: tried) d) with (last (t :: tried) d).
           apply Hax.
        -- cbn [forallb]. rewrite He. cbn [negb andb]. exact Hall.
Qed.

(** X15.  [setup_fastencoder_nocompression] fails its assertion, having
    called nothing, when there is no encoder.  Otherwise it returns, whether
    or not the protocol took an encoder: it tries the encoders in their
    order, up to and including the first one that the protocol takes, and
    none after it; all those before it were refused.  It enables the
    compressor [none] once, as its last call, also when every encoder was
    refused. *)
Theorem setup_fastencoder_nocompression_tries_in_order
        (encoders : list string) (accepts : string -> bool) :
  (encoders = [] ->
   setup_fastencoder_nocompression encoders accepts =
     AssertionError "no packet encoders available!?") /\
  (encoders <> [] ->
   exists made tried rest,
     setup_fastencoder_nocompression encoders accepts =
       setup_done (made ++ [enable_compressor "none"]) /\
     encoders = tried ++ rest /\
     encoders_tried (made ++ [enable_compressor "none"]) = tried /\
     tried <> [] /\
     forallb (fun e => negb (accepts e)) (removelast tried) = true /\
     (rest <> [] -> accepts (last tried EmptyString) = true) /\
     (forallb (fun e => negb (accepts e)) encoders = true -> tried = encoders) /\
     ~ In (enable_compressor "none") made).
Proof.
  unfold setup_fastencoder_nocompression. split.
  - intros ->. reflexivity.
  - intros Hne.
    assert (Hlen : (len encoders >? 0) = true).
    { destruct encoders as [|e l]; [congruence|]. rewrite len_cons.
      pose proof (len_nonneg l). apply Z.gtb_lt. lia. }
    rewrite Hlen.
    destruct (enable_first_tried accepts encoders)
      as (tried & rest & Heq & Htried & Hrej & Hacc & Hall).
    exists (enable_first accepts encoders), tried, rest.
    split; [reflexivity|]. split; [assumption|].
    split; [rewrite encoders_tried_app, Htried; apply List.app_nil_r|].
    split.
    { intros ->. destruct encoders as [|e l]; [congruence|].
      cbn [enable_first encoders_tried flat_map] in Htried.
      destruct (accepts e); discriminate. }
    split; [assumption|].
    split.
    { intros Hrest. apply (Hacc Hrest). }
    split.
    { intros H. rewrite (Hall H), List.app_nil_r in Heq. congruence. }
    clear. induction encoders as [|e l IH]; cbn [enable_first].
    + intros [].
    + destruct (accepts e); cbn [In]; intros [H|[H|H]]; try discriminate; tauto.
Qed.

(** X16.  [exec_kwargs] never replaces a [stderr] that its caller gave.
    When none was given, [stderr] is the null device on MS Windows with
    redirected output, and else the descriptor of [sys.stderr] when there is
    one.  [startupinfo] is set, over what the caller gave, on MS Windows
    unless [WIN32_SHOWWINDOW] is on: its flags are [STARTF_USESHOWWINDOW]
    and its window is hidden.  Every other keyword argument is returned as
    given. *)
Theorem exec_kwargs_keeps_stderr (pf : platform) (kwargs : dict kwvalue)
        (k : string) :
  (forall v, kwargs "stderr"%string = Some v ->
             exec_kwargs pf kwargs "stderr"%string = Some v) /\
  (kwargs "stderr"%string = None ->
   exec_kwargs pf kwargs "stderr"%string =
     if WIN32 pf && REDIRECT_OUTPUT pf then Some devnull_file
     else option_map fileno (sys_stderr pf)) /\
  exec_kwargs pf kwargs "startupinfo"%string =
    (if WIN32 pf && negb (WIN32_SHOWWINDOW pf)
     then Some (STARTUPINFO (STARTF_USESHOWWINDOW pf) 0)
     else kwargs "startupinfo"%string) /\
  (k <> "stderr"%string -> k <> "startupinfo"%string ->
   exec_kwargs pf kwargs k = kwargs k).
Proof.
  unfold exec_kwargs.
  destruct (kwargs "stderr"%string) as [v0|] eqn:Hs;
    destruct (WIN32 pf), (REDIRECT_OUTPUT pf), (WIN32_SHOWWINDOW pf),
      (sys_stderr pf) as [fd|]; cbn [andb negb option_map Z.lor];
    unfold setitem; cbn [String.eqb Ascii.eqb Bool.eqb];
    rewrite ?Hs; cbn [String.eqb Ascii.eqb Bool.eqb]; rewrite ?Hs;
    (split; [intros v Hv; try discriminate; try assumption
            |split; [intros Hv; try discriminate; try reflexivity
                    |split; [try reflexivity|intros H1 H2]]]);
    repeat match goal with
           | |- context [String.eqb ?a ?b] =>
               destruct (String.eqb_spec a b); [congruence|]
           end;
    try reflexivity.
Qed.

(** X15 for two encoders of which the protocol takes the second. *)
Lemma setup_fastencoder_nocompression_tries_in_order_witness :
  exists made tried rest,
    setup_fastencoder_nocompression ["rencodeplus"; "none"]%string
                                    (String.eqb "none") =
      setup_done (made ++ [enable_compressor "none"]) /\
    ["rencodeplus"; "none"]%string = tried ++ rest /\
    encoders_tried (made ++ [enable_compressor "none"]) = tried /\
    tried <> [] /\
    forallb (fun e => negb (String.eqb "none" e)) (removelast tried) = true /\
    (rest <> [] -> String.eqb "none" (last tried EmptyString) = true) /\
    (forallb (fun e => negb (String.eqb "none" e))
             ["rencodeplus"; "none"]%string = true ->
     tried = ["rencodeplus"; "none"]%string) /\
    ~ In (enable_compressor "none") made.
Proof.
  apply (setup_fastencoder_nocompression_tries_in_order
           ["rencodeplus"; "none"]%string (String.eqb "none")).
  discriminate.
Defined.
